(** * granola-mcp: the document-retrieval and rendering core of [src/granola-api.ts]

    A shallow embedding of the class [GranolaAPI] and theorems about it.

    Conventions of the embedding.
    - A JavaScript string is a [string]: a sequence of code units below 256
      (the Latin-1 range).  On that range [toLowerCase] and [trim] are
      character-wise and are written out in full below.
    - Values whose TypeScript type is a declared interface are records with
      the interface's fields, each at its declared type; an optional field
      is an [option].  A value of type [unknown] (a heading's
      [attrs.level]) is a [JSValue].
    - A call either returns or throws: [Completion].  A method of the class
      also reads and writes the private field [accessToken]: [Method].  An
      [async] method that rejects is a method that throws.
    - Built-in functions whose result the source only passes on
      ([Date.parse], [JSON.parse], the conversions between strings and
      numbers, the sort of an array, [path.join]) are the fields of the
      class [Host], together with what ECMAScript prescribes of them; the
      file system and the remote service are a [World].
    - Of the limits of the engine, the longest string is a field of [Host]
      and is tested where a length comes from a number of the input
      ([String.prototype.repeat]).  Strings that exist are taken to be
      short enough to be put together, and the call stack to be deep enough
      for the tree. *)

From Stdlib Require Import Bool Arith ZArith QArith_base Qreduction List Ascii String Lia.
From Stdlib Require Import DecimalString Permutation.
Import ListNotations.
Set Warnings "-register-all".
Close Scope Q_scope.
Open Scope string_scope.

(** ** Strings *)

(** [String.prototype.toLowerCase] on Latin-1: [A]-[Z], and the accented
    capitals U+00C0-U+00DE except the multiplication sign U+00D7, move up
    by 32; every other code unit is kept. *)
Definition isUpperCase (c : ascii) : bool :=
  let n := nat_of_ascii c in
  (((65 <=? n) && (n <=? 90)) || ((192 <=? n) && (n <=? 222) && negb (n =? 215)))%nat.

Definition lowerChar (c : ascii) : ascii :=
  if isUpperCase c then ascii_of_nat (nat_of_ascii c + 32) else c.

Fixpoint toLowerCase (s : string) : string :=
  match s with
  | EmptyString => EmptyString
  | String c r => String (lowerChar c) (toLowerCase r)
  end.

(** [s.startsWith(p)]. *)
Fixpoint startsWith (s p : string) {struct p} : bool :=
  match p, s with
  | EmptyString, _ => true
  | String a p', String b s' => Ascii.eqb a b && startsWith s' p'
  | String _ _, EmptyString => false
  end.

(** [s.includes(sub)]: [sub] occurs in [s] at some position. *)
Fixpoint includes (s sub : string) : bool :=
  startsWith s sub ||
  match s with
  | EmptyString => false
  | String _ r => includes r sub
  end.

(** White space and line terminators of ECMAScript that lie in Latin-1:
    TAB, LF, VT, FF, CR, SP and NBSP. *)
Definition isWhiteSpace (c : ascii) : bool :=
  let n := nat_of_ascii c in
  (((9 <=? n) && (n <=? 13)) || (n =? 32) || (n =? 160))%nat.

Fixpoint trimStart (s : string) : string :=
  match s with
  | EmptyString => EmptyString
  | String c r => if isWhiteSpace c then trimStart r else s
  end.

Fixpoint trimEnd (s : string) : string :=
  match s with
  | EmptyString => EmptyString
  | String c r =>
      match trimEnd r with
      | EmptyString => if isWhiteSpace c then EmptyString else String c EmptyString
      | t => String c t
      end
  end.

(** [String.prototype.trim]. *)
Definition trim (s : string) : string := trimEnd (trimStart s).

(** A string in a boolean position: the empty string is falsy. *)
Definition truthy (s : string) : bool := negb (s =? "").

(** [Array.prototype.join] on an array of strings: the result starts empty;
    before every element but the first the separator is appended, then the
    element. *)
Fixpoint join_from (sep R : string) (k : nat) (l : list string) : string :=
  match l with
  | [] => R
  | x :: r => join_from sep ((if (k =? 0)%nat then R else R ++ sep) ++ x) (S k) r
  end.

Definition join (sep : string) (l : list string) : string := join_from sep "" 0 l.

(** A natural number in a template literal: its decimal digits. *)
Definition natToString (n : nat) : string := NilZero.string_of_uint (Nat.to_uint n).

(** [s.repeat(n)] for a count already known to be a natural number. *)
Fixpoint repeatString (s : string) (n : nat) : string :=
  match n with
  | O => ""
  | S m => s ++ repeatString s m
  end.

Definition LF : string := String (ascii_of_nat 10) EmptyString.
Definition backtick : string := String (ascii_of_nat 96) EmptyString.

(** ** Completions *)

Inductive Exception : Type :=
| Error (message : string)    (* [new Error(message)] *)
| RangeError                  (* thrown by [String.prototype.repeat] *)
| SyntaxError                 (* thrown by [JSON.parse] *)
| TypeError                   (* a property read of [null]; an object without a primitive value *)
| FetchFailed.                (* the rejection of [fetch] itself *)

Inductive Completion (A : Type) : Type :=
| Normal (value : A)
| Throw (e : Exception).
Arguments Normal {A} value.
Arguments Throw {A} e.

Definition bind {A B} (c : Completion A) (k : A -> Completion B) : Completion B :=
  match c with
  | Normal a => k a
  | Throw e => Throw e
  end.

Notation "x <- c ;; k" := (bind c (fun x => k))
  (at level 61, c at next level, right associativity).

Section Traverse.
Context {A B : Type}.

(** [l.map(f)] when [f] may throw: the elements are visited in order and
    the first exception ends the call. *)
Fixpoint mapM (f : A -> Completion B) (l : list A) : Completion (list B) :=
  match l with
  | [] => Normal []
  | x :: r => y <- f x ;; ys <- mapM f r ;; Normal (y :: ys)
  end.

(** [l.map((x, i) => f(x, i))], the index counted from [i]. *)
Fixpoint mapiM_from (f : A -> nat -> Completion B) (i : nat) (l : list A)
  : Completion (list B) :=
  match l with
  | [] => Normal []
  | x :: r => y <- f x i ;; ys <- mapiM_from f (S i) r ;; Normal (y :: ys)
  end.

Definition mapiM (f : A -> nat -> Completion B) (l : list A) : Completion (list B) :=
  mapiM_from f 0 l.
End Traverse.

(** ** JavaScript values of unknown type *)

(** A number: NaN, an infinity, or a finite value (each finite double is a
    rational; the two zeros are not told apart, and nothing below does). *)
Inductive Number : Type :=
| NaN
| Infinity (negative : bool)
| Finite (q : Q).

(** A value read from parsed JSON where the source declares no type: a
    primitive value, an array with its elements, or a plain object with its
    own properties in the order of the text.  ([JSUndefined] is what a read
    of an absent property gives; JSON does not carry it.) *)
Inductive JSValue : Type :=
| JSUndefined
| JSNull
| JSBoolean (b : bool)
| JSNumber (n : Number)
| JSString (s : string)
| JSArray (elements : list JSValue)
| JSObject (properties : list (string * JSValue)).

Definition ToBoolean (v : JSValue) : bool :=
  match v with
  | JSUndefined | JSNull => false
  | JSBoolean b => b
  | JSNumber NaN => false
  | JSNumber (Infinity _) => true
  | JSNumber (Finite q) => negb (Qnum q =? 0)%Z
  | JSString s => truthy s
  | JSArray _ | JSObject _ => true
  end.

(** [Object.hasOwn(o, name)] for a plain object of these properties. *)
Definition hasOwnProperty (properties : list (string * JSValue)) (name : string) : bool :=
  existsb (fun p => fst p =? name) properties.

Inductive IntegerOrInfinity : Type :=
| MinusInfinity
| PlusInfinity
| Integer (z : Z).

(** [ToIntegerOrInfinity]: NaN is 0, a finite number is truncated toward 0. *)
Definition ToIntegerOrInfinity (n : Number) : IntegerOrInfinity :=
  match n with
  | NaN => Integer 0
  | Infinity negative => if negative then MinusInfinity else PlusInfinity
  | Finite q => Integer (Z.quot (Qnum q) (Zpos (Qden q)))
  end.

(** ** The data model of [granola-api.ts] *)

(** [{ type: string }], an inline mark of a text node. *)
Record Mark : Type := { mark_type : string }.

(** [interface ProseMirrorNode].  [content] absent is the empty list (the
    source reads it as [node.content || []]); of [attrs] only [level] is
    ever read, [JSUndefined] when [attrs] or the key is absent. *)
Inductive ProseMirrorNode : Type :=
| PMNode (type : string)
         (content : list ProseMirrorNode)
         (text : option string)
         (marks : option (list Mark))
         (attrs_level : JSValue).

(** [last_viewed_panel?: { content?: ProseMirrorNode }]. *)
Record LastViewedPanel : Type := { panel_content : option ProseMirrorNode }.

(** [interface GranolaDocument], with the fields the class reads. *)
Record GranolaDocument : Type := {
  id : string;
  title : string;
  created_at : string;
  last_viewed_panel : option LastViewedPanel;
  notes_markdown : option string
}.

(** [interface TranscriptSegment]. *)
Record TranscriptSegment : Type := { source : string; segment_text : string }.

(** [interface GranolaConfig] and [interface WorkOSTokens]; the source tests
    both fields for absence, so both are optional here. *)
Record GranolaConfig : Type := { workos_tokens : option string }.
Record WorkOSTokens : Type := { access_token : option string }.

(** [interface GetDocumentsResponse]; [docs] is read as [response.docs || []]. *)
Record GetDocumentsResponse : Type := { docs : option (list GranolaDocument) }.

(** What [JSON.parse(s) as T] gives when it returns: [null], or a value
    that the source reads at the type [T].  Of a value that is no object,
    or an object without some field of [T], that field is absent. *)
Inductive Nullable (T : Type) : Type :=
| IsNull
| NotNull (value : T).
Arguments IsNull {T}.
Arguments NotNull {T} value.

(** What the transcript endpoint's body parses to: an array, whose
    elements are segments, or a value that is no array. *)
Inductive TranscriptResponse : Type :=
| SegmentArray (segments : list TranscriptSegment)
| NotAnArray (v : JSValue).

(** The JSON bodies the class posts. *)
Inductive RequestBody : Type :=
| GetDocumentsBody (limit offset : Z)      (* [{limit, offset, include_last_viewed_panel: true}] *)
| GetTranscriptBody (document_id : string). (* [{document_id}] *)

(** The part of a [fetch] response the class reads: [ok], [status] and the
    body text. *)
Record Response : Type := { ok : bool; status : nat; body_text : string }.

(** [{ document: GranolaDocument }], the result of [findLatest1on1]. *)
Record Latest1on1 : Type := { document : GranolaDocument }.

(** ** Sorting *)

(** What ECMAScript prescribes of [Array.prototype.sort(comparefn)].  For a
    consistent comparator the result holds the elements in the
    comparator's order, those it calls equal in the order they had (the
    sort is stable); that is the result of insertion sort, each element
    going behind those it does not precede.  For any other comparator the
    result is an order of the elements that the engine chooses. *)
Section Sort.
Context {A : Type} (comparefn : A -> A -> option Z).

(** The comparator's result as a sort reads it: NaN counts as 0. *)
Definition sortCompare (x y : A) : Z :=
  match comparefn x y with
  | Some v => v
  | None => 0%Z
  end.

Fixpoint insertSorted (x : A) (l : list A) : list A :=
  match l with
  | [] => [x]
  | y :: r => if (sortCompare x y <? 0)%Z then x :: y :: r else y :: insertSorted x r
  end.

Definition stableSort (l : list A) : list A :=
  fold_left (fun sorted x => insertSorted x sorted) l [].

(** [comparefn] is a consistent comparator for the elements of [l]: it
    never gives NaN, [b] is behind [a] exactly when [a] is before [b], and
    "not behind" is transitive. *)
Definition consistent (l : list A) : bool :=
  forallb (fun a =>
    forallb (fun b =>
      match comparefn a b, comparefn b a with
      | Some v, Some v' => (Z.sgn v =? - Z.sgn v')%Z
      | _, _ => false
      end
      && forallb (fun c =>
           implb ((sortCompare a b <=? 0)%Z && (sortCompare b c <=? 0)%Z)
                 (sortCompare a c <=? 0)%Z) l) l) l.
End Sort.

(** ** The platform *)

(** Built-in functions the source calls and whose results it passes on.
    They are parameters of the development: every theorem holds whatever
    they compute, within what ECMAScript prescribes of them. *)
Class Host : Type := {
  (** [new Date(s).getTime()]: milliseconds since the epoch, [None] for NaN. *)
  Date_getTime : string -> option Z;
  (** [ToNumber] on a string, and [ToString] on a number. *)
  StringToNumber : string -> Number;
  NumberToString : Number -> string;
  (** The length of the longest string the engine makes; at least 1. *)
  String_maxLength : Z;
  String_maxLength_positive : (0 < String_maxLength)%Z;
  (** [JSON.parse(s) as T] at the types the source casts to; [None] when
      [JSON.parse] throws a [SyntaxError]. *)
  JSON_parse_GranolaConfig : string -> option (Nullable GranolaConfig);
  JSON_parse_WorkOSTokens : string -> option (Nullable WorkOSTokens);
  JSON_parse_GetDocumentsResponse : string -> option (Nullable GetDocumentsResponse);
  JSON_parse_TranscriptResponse : string -> option TranscriptResponse;
  (** [path.join]. *)
  path_join : string -> string -> string;
  (** [Array.prototype.sort] on an array of documents: always an order of
      the elements, and the stable order for a consistent comparator. *)
  Array_sort : (GranolaDocument -> GranolaDocument -> option Z) ->
               list GranolaDocument -> list GranolaDocument;
  Array_sort_permutes :
    forall comparefn l, Permutation l (Array_sort comparefn l);
  Array_sort_stable :
    forall comparefn l,
      consistent comparefn l = true -> Array_sort comparefn l = stableSort comparefn l
}.

(** The environment of a run: the home directory, the files (the content at
    a path, [None] when no file is there) and the remote service (the
    response to a POST of a body to a URL under an [Authorization] header,
    [None] when [fetch] rejects). *)
Record World : Type := {
  homedir : string;
  files : string -> option string;
  fetch : string -> string -> RequestBody -> option Response
}.

(** The instance state: [private accessToken: string | null]. *)
Record GranolaAPI : Type := { accessToken : option string }.

(** A method call: from the state before to a completion and the state
    after. *)
Definition Method (A : Type) : Type := GranolaAPI -> Completion A * GranolaAPI.

Definition ret {A} (a : A) : Method A := fun this => (Normal a, this).

Definition throw {A} (e : Exception) : Method A := fun this => (Throw e, this).

Definition mbind {A B} (m : Method A) (k : A -> Method B) : Method B :=
  fun this =>
    match m this with
    | (Normal a, this') => k a this'
    | (Throw e, this') => (Throw e, this')
    end.

(** A call that does not touch the state. *)
Definition lift {A} (c : Completion A) : Method A := fun this => (c, this).

(** [try { m } catch { handler }]. *)
Definition tryCatch {A} (m : Method A) (handler : Method A) : Method A :=
  fun this =>
    match m this with
    | (Normal a, this') => (Normal a, this')
    | (Throw _, this') => handler this'
    end.

Notation "x <~ m ;; k" := (mbind m (fun x => k))
  (at level 61, m at next level, right associativity).

(** An optional string in a boolean position. *)
Definition truthyOpt (s : option string) : bool :=
  match s with
  | Some t => truthy t
  | None => false
  end.

(** [s || ""]. *)
Definition orEmpty (s : option string) : string :=
  match s with
  | Some t => t
  | None => ""
  end.

Section Renderer.
Context {H : Host}.

(** *** The renderer *)

(** [ToString].  An array is converted by [Array.prototype.join]: its
    elements' strings with commas between them, [null] and [undefined]
    giving the empty string.  A plain object has the methods of
    [Object.prototype] unless a property of its own hides them, and a
    property that came from JSON is no function: with an own [toString]
    the object has no primitive value, a [TypeError]; without, its string
    is [[object Object]]. *)
Fixpoint ToString (v : JSValue) : Completion string :=
  match v with
  | JSUndefined => Normal "undefined"
  | JSNull => Normal "null"
  | JSBoolean b => Normal (if b then "true" else "false")
  | JSNumber n => Normal (NumberToString n)
  | JSString s => Normal s
  | JSArray elements =>
      parts <- mapM (fun element =>
                       match element with
                       | JSUndefined | JSNull => Normal ""
                       | _ => ToString element
                       end) elements ;;
      Normal (join "," parts)
  | JSObject properties =>
      if hasOwnProperty properties "toString" then Throw TypeError
      else Normal "[object Object]"
  end.

(** [ToNumber].  An array or object is first converted to a primitive
    value, which for values that came from JSON is the string above. *)
Definition ToNumber (v : JSValue) : Completion Number :=
  match v with
  | JSUndefined => Normal NaN
  | JSNull => Normal (Finite (Qmake 0 1))
  | JSBoolean b => Normal (Finite (Qmake (if b then 1 else 0) 1))
  | JSNumber n => Normal n
  | JSString s => Normal (StringToNumber s)
  | JSArray _ | JSObject _ => s <- ToString v ;; Normal (StringToNumber s)
  end.

(** [s.repeat(count)]: a [TypeError] when the count has no primitive
    value; a [RangeError] when the count, converted to an integer, is
    negative or infinite, and when the result would be longer than the
    longest string. *)
Definition String_repeat (s : string) (count : JSValue) : Completion string :=
  n <- ToNumber count ;;
  match ToIntegerOrInfinity n with
  | Integer n =>
      if (n <? 0)%Z then Throw RangeError
      else if (String_maxLength <? n * Z.of_nat (String.length s))%Z then Throw RangeError
      else Normal (repeatString s (Z.to_nat n))
  | MinusInfinity | PlusInfinity => Throw RangeError
  end.

(** [v || 1]. *)
Definition orOne (v : JSValue) : JSValue :=
  if ToBoolean v then v else JSNumber (Finite (Qmake 1 1)).

(** One turn of the loop over a text node's marks. *)
Definition applyMark (result : string) (mark : Mark) : string :=
  if mark_type mark =? "bold" then "**" ++ result ++ "**"
  else if mark_type mark =? "italic" then "*" ++ result ++ "*"
  else if mark_type mark =? "code" then backtick ++ result ++ backtick
  else result.

(** The callback of the [orderedList] branch, given the child's render. *)
Definition numbered (childText : string) (i : nat) : string :=
  if truthy childText then natToString (i + 1) ++ ". " ++ childText else "".

Fixpoint processNode (node : ProseMirrorNode) : Completion string :=
  match node with
  | PMNode nodeType content text marks level =>
      if nodeType =? "text" then
        Normal (fold_left applyMark (match marks with Some l => l | None => [] end)
                          (orEmpty text))
      else if nodeType =? "paragraph" then
        children <- mapM processNode content ;;
        let paraText := join "" children in
        Normal (if truthy (trim paraText) then paraText ++ LF ++ LF else "")
      else if nodeType =? "heading" then
        let level := orOne level in
        children <- mapM processNode content ;;
        let headingText := join "" children in
        hashes <- String_repeat "#" level ;;
        Normal (hashes ++ " " ++ headingText ++ LF ++ LF)
      else if nodeType =? "bulletList" then
        children <- mapM processNode content ;;
        Normal (join "" children)
      else if nodeType =? "listItem" then
        children <- mapM processNode content ;;
        let itemText := join "" children in
        Normal ("- " ++ itemText)
      else if nodeType =? "orderedList" then
        items <- mapiM (fun child i =>
                          childText <- processNode child ;;
                          Normal (numbered childText i)) content ;;
        Normal (join "" items)
      else if nodeType =? "codeBlock" then
        children <- mapM processNode content ;;
        let codeText := join "" children in
        Normal (backtick ++ backtick ++ backtick ++ LF ++ codeText ++ LF
                ++ backtick ++ backtick ++ backtick ++ LF ++ LF)
      else if nodeType =? "hardBreak" then
        Normal LF
      else if (0 <? List.length content)%nat then
        children <- mapM processNode content ;;
        Normal (join "" children)
      else
        Normal ""
  end.

Definition convertProseMirrorToMarkdown (pmContent : option ProseMirrorNode)
  : Completion string :=
  match pmContent with
  | None => Normal ""
  | Some node => processNode node
  end.

End Renderer.

Section Methods.
Context {H : Host} (w : World).

(** *** Credentials *)

Definition configPath : string :=
  path_join (homedir w) "Library/Application Support/Granola/supabase.json".

Definition configNotFound : string :=
  "Granola config file not found at " ++ configPath
  ++ ". Make sure Granola is installed and you're logged in.".

Definition loadCredentials : Completion string :=
  match files w configPath with
  | None => Throw (Error configNotFound)
  | Some configData =>
      match JSON_parse_GranolaConfig configData with
      | None => Throw SyntaxError
      | Some IsNull => Throw TypeError (* [config.workos_tokens] of [null] *)
      | Some (NotNull config) =>
          if negb (truthyOpt (workos_tokens config)) then
            Throw (Error "No workos_tokens found in Granola config")
          else
            match JSON_parse_WorkOSTokens (orEmpty (workos_tokens config)) with
            | None => Throw SyntaxError
            | Some IsNull => Throw TypeError (* [workosTokens.access_token] of [null] *)
            | Some (NotNull workosTokens) =>
                if negb (truthyOpt (access_token workosTokens)) then
                  Throw (Error "No access_token found in workos_tokens")
                else Normal (orEmpty (access_token workosTokens))
            end
      end
  end.

Definition getAccessToken : Method string :=
  fun this =>
    if negb (truthyOpt (accessToken this)) then
      match loadCredentials with
      | Normal token => (Normal token, {| accessToken := Some token |})
      | Throw e => (Throw e, this)
      end
    else (Normal (orEmpty (accessToken this)), this).

(** *** Requests *)

(** [makeRequest<T>(url, body)], with the parser of the type it is called
    at. *)
Definition makeRequest {T} (parse : string -> option T) (url : string)
  (body : RequestBody) : Method T :=
  token <~ getAccessToken ;;
  match fetch w url ("Bearer " ++ token) body with
  | None => throw FetchFailed
  | Some response =>
      if negb (ok response) then
        throw (Error ("API error " ++ natToString (status response) ++ ": "
                      ++ body_text response))
      else
        match parse (body_text response) with
        | None => throw SyntaxError
        | Some data => ret data
        end
  end.

Definition getRecentDocuments (limit offset : Z) : Method (list GranolaDocument) :=
  response <~ makeRequest JSON_parse_GetDocumentsResponse
                "https://api.granola.ai/v2/get-documents"
                (GetDocumentsBody limit offset) ;;
  match response with
  | IsNull => throw TypeError (* [response.docs] of [null] *)
  | NotNull response => ret (match docs response with Some l => l | None => [] end)
  end.

(** The callback that formats one transcript segment. *)
Definition formatSegment (segment : TranscriptSegment) : string :=
  if source segment =? "microphone" then "**Me:** " ++ segment_text segment
  else if source segment =? "system" then "**System:** " ++ segment_text segment
  else segment_text segment.

(** [segments] in a boolean position, [Array.isArray(segments)] and the
    elements of [segments]. *)
Definition responseTruthy (r : TranscriptResponse) : bool :=
  match r with
  | SegmentArray _ => true
  | NotAnArray v => ToBoolean v
  end.

Definition Array_isArray (r : TranscriptResponse) : bool :=
  match r with
  | SegmentArray _ => true
  | NotAnArray _ => false
  end.

Definition segmentsOf (r : TranscriptResponse) : list TranscriptSegment :=
  match r with
  | SegmentArray l => l
  | NotAnArray _ => []
  end.

(** [!segments || !Array.isArray(segments) || segments.length === 0]. *)
Definition noSegments (r : TranscriptResponse) : bool :=
  negb (responseTruthy r) || negb (Array_isArray r)
  || (List.length (segmentsOf r) =? 0)%nat.

Definition getDocumentTranscript (documentId : string) : Method (option string) :=
  tryCatch
    (segments <~ makeRequest JSON_parse_TranscriptResponse
                   "https://api.granola.ai/v1/get-document-transcript"
                   (GetTranscriptBody documentId) ;;
     if noSegments segments then ret None
     else
       let formattedTranscript := map formatSegment (segmentsOf segments) in
       ret (Some (join (LF ++ LF) formattedTranscript)))
    (ret None).

Definition getDocumentNotes (documentId : string) : Method (option string) :=
  tryCatch
    (documents <~ getRecentDocuments 100 0 ;;
     match find (fun d => id d =? documentId) documents with
     | None => ret None
     | Some doc =>
         if truthyOpt (notes_markdown doc) then ret (notes_markdown doc)
         else
           match last_viewed_panel doc with
           | Some {| panel_content := Some content |} =>
               rendered <~ lift (convertProseMirrorToMarkdown (Some content)) ;;
               ret (Some rendered)
           | _ => ret None
           end
     end)
    (ret None).

(** *** Matching *)

Definition titleMatches (pattern : string) (doc : GranolaDocument) : bool :=
  includes (toLowerCase (title doc)) pattern.

Definition searchDocuments (titlePattern : string) (limit : Z)
  : Method (list GranolaDocument) :=
  documents <~ getRecentDocuments limit 0 ;;
  let pattern := toLowerCase titlePattern in
  ret (filter (titleMatches pattern) documents).

(** The filter of [findLatest1on1]. *)
Definition is1on1With (nameLower : string) (doc : GranolaDocument) : bool :=
  let titleLower := toLowerCase (title doc) in
  let hasName := includes titleLower nameLower in
  let is1on1 := includes titleLower "1:1" || includes titleLower "1x1" in
  hasName && is1on1.

(** The comparator [(a, b) => new Date(b.created_at).getTime() -
    new Date(a.created_at).getTime()]; [None] is NaN.  (The difference of
    two time values has the sign of their exact difference.) *)
Definition byCreatedAtDesc (a b : GranolaDocument) : option Z :=
  match Date_getTime (created_at b), Date_getTime (created_at a) with
  | Some tb, Some ta => Some (tb - ta)%Z
  | _, _ => None
  end.

End Methods.

Section Finder.
Context {H : Host} (w : World).

Definition findLatest1on1 (personName : string) : Method (option Latest1on1) :=
  documents <~ getRecentDocuments w 50 0 ;;
  let nameLower := toLowerCase personName in
  let matching := filter (is1on1With nameLower) documents in
  if (List.length matching =? 0)%nat then ret None
  else
    let matching := Array_sort byCreatedAtDesc matching in
    match matching with
    | first :: _ => ret (Some {| document := first |})
    | [] => ret None (* not reached: [matching] is not empty *)
    end.

End Finder.

(** ** Notions used in the statements *)

(** The strings of a list one behind the other. *)
Definition flat (l : list string) : string := fold_right append "" l.

(** Some substring of [t] equals [q] up to letter case. *)
Definition containsIgnoreCase (t q : string) : Prop :=
  exists pre mid post,
    t = pre ++ mid ++ post /\ toLowerCase mid = toLowerCase q.






(** A document is a one-on-one with [name] by its title. *)
Definition qualifies (name : string) (d : GranolaDocument) : Prop :=
  containsIgnoreCase (title d) name /\
  (containsIgnoreCase (title d) "1:1" \/ containsIgnoreCase (title d) "1x1").




(** The text of an ordered list whose children render to [renders]: the
    child at 0-based position [i] gives its render behind [i + 1] and a
    dot and a space, or nothing when its render is empty. *)
Definition orderedItem (renders : list string) (i : nat) : string :=
  match nth i renders "" with
  | EmptyString => ""
  | String c r => natToString (i + 1) ++ ". " ++ String c r
  end.

Definition orderedListText (renders : list string) : string :=
  flat (map (orderedItem renders) (seq 0 (List.length renders))).

(** The line of the formatted transcript that belongs to a segment. *)
Definition lineOf (segment : TranscriptSegment) (line : string) : Prop :=
  (source segment = "microphone" -> line = "**Me:** " ++ segment_text segment) /\
  (source segment = "system" -> line = "**System:** " ++ segment_text segment) /\
  (source segment <> "microphone" -> source segment <> "system" ->
   line = segment_text segment).

(** A well-formed content tree: a [text] node has no children (finiteness
    and acyclicity come with the inductive type). *)
Fixpoint wellFormed (n : ProseMirrorNode) : bool :=
  match n with
  | PMNode type content _ _ _ =>
      (if type =? "text" then (List.length content =? 0)%nat else true)
      && forallb wellFormed content
  end.

Section LevelsInRange.
Context {H : Host}.

(** A heading level the renderer can use: falsy (replaced by 1), or
    converting to an integer count from 0 to the length of the longest
    string. *)
Definition levelInRange (v : JSValue) : bool :=
  negb (ToBoolean v) ||
  match ToNumber v with
  | Normal n =>
      match ToIntegerOrInfinity n with
      | Integer n => (0 <=? n)%Z && (n <=? String_maxLength)%Z
      | MinusInfinity | PlusInfinity => false
      end
  | Throw _ => false
  end.

(** Every heading of the tree has such a level. *)
Fixpoint headingLevelsInRange (n : ProseMirrorNode) : bool :=
  match n with
  | PMNode type content _ _ level =>
      (if type =? "heading" then levelInRange level else true)
      && forallb headingLevelsInRange content
  end.



(** The text a call returns, if it returns one, is no longer than the
    longest string.  (A longer text does not exist: where the engine
    would put it together, it throws a [RangeError].) *)
Definition fitsString (c : Completion string) : Prop :=
  forall s, c = Normal s -> (Z.of_nat (String.length s) <= String_maxLength)%Z.
End LevelsInRange.

(** Modelled from the spec: the remote listing endpoint, which is not part
    of this repository.  Over the service's documents, most recent first,
    a request for [limit] documents from [offset] on is answered with that
    window of the sequence. *)
Definition serviceListing (store : list GranolaDocument) (limit offset : nat)
  : list GranolaDocument :=
  firstn limit (skipn offset store).

(** ** The examples *)

Definition dq : string := String (ascii_of_nat 34) EmptyString.
Definition quoted (s : string) : string := dq ++ s ++ dq.

(** *** Numbers *)

Section ExampleNumbers.
Local Open Scope Z_scope.

(** The double nearest to the positive rational [num / den], ties to the
    even mantissa; past the greatest double it is infinity. *)
Definition roundToDouble (num den : Z) : Number :=
  let e0 := Z.log2 num - Z.log2 den in
  let below := if 0 <=? e0 then num <? den * 2 ^ e0 else num * 2 ^ (- e0) <? den in
  let e := if below then e0 - 1 else e0 in
  let s := Z.max e (-1022) - 52 in
  let N := if 0 <=? s then num else num * 2 ^ (- s) in
  let D := if 0 <=? s then den * 2 ^ s else den in
  let q := N / D in
  let r := N mod D in
  let m := if (D <? 2 * r) || ((D =? 2 * r) && Z.odd q) then q + 1 else q in
  if 0 <=? s then
    if 2 ^ 1024 <=? m * 2 ^ s then Infinity false
    else Finite (Qred (Qmake (m * 2 ^ s) 1))
  else Finite (Qred (Qmake m (Z.to_pos (2 ^ (- s))))).

Definition negate (n : Number) : Number :=
  match n with
  | NaN => NaN
  | Infinity negative => Infinity (negb negative)
  | Finite q => Finite (Qmake (- Qnum q) (Qden q))
  end.

(** The number of the decimal [m * 10 ^ x], for [m] not negative. *)
Definition decimalToNumber (m x : Z) : Number :=
  if m =? 0 then Finite (Qmake 0 1)
  else if 400 <? x then Infinity false
  else if x + Z.log2 m / 3 + 1 <? -400 then Finite (Qmake 0 1)
  else if 0 <=? x then roundToDouble (m * 10 ^ x) 1
  else roundToDouble m (10 ^ (- x)).

(** The value of a digit in a radix up to 16, [None] for another
    character. *)
Definition digitValue (radix : Z) (c : ascii) : option Z :=
  let n := Z.of_nat (nat_of_ascii c) in
  let v := if (48 <=? n) && (n <=? 57) then n - 48
           else if (97 <=? n) && (n <=? 102) then n - 87
           else if (65 <=? n) && (n <=? 70) then n - 55
           else 16 in
  if v <? radix then Some v else None.

(** The leading digits of [s]: their value behind [acc], their number and
    what follows them. *)
Fixpoint readDigits (radix : Z) (s : string) (acc : Z) (count : nat)
  : Z * nat * string :=
  match s with
  | EmptyString => (acc, count, s)
  | String c r =>
      match digitValue radix c with
      | Some v => readDigits radix r (radix * acc + v) (S count)
      | None => (acc, count, s)
      end
  end.

(** A leading sign. *)
Definition readSign (s : string) : bool * string :=
  match s with
  | String c r =>
      if Ascii.eqb c "-"%char then (true, r)
      else if Ascii.eqb c "+"%char then (false, r)
      else (false, s)
  | EmptyString => (false, s)
  end.

(** What follows the digits of a decimal: nothing, or an exponent. *)
Definition readExponent (s : string) : option Z :=
  match s with
  | EmptyString => Some 0
  | String c r =>
      if Ascii.eqb c "e"%char || Ascii.eqb c "E"%char then
        let (negative, r) := readSign r in
        let '(e, count, rest) := readDigits 10 r 0 0 in
        if (count =? 0)%nat || negb (rest =? "")%string then None
        else Some (if negative then - e else e)
      else None
  end.

(** [StrUnsignedDecimalLiteral]: digits with an optional fraction, or a
    fraction alone, and an optional exponent. *)
Definition unsignedDecimal (s : string) : Number :=
  if (s =? "Infinity")%string then Infinity false
  else
    let '(i, ci, r1) := readDigits 10 s 0 0 in
    let '(m, cf, r2) :=
      match r1 with
      | String c r => if Ascii.eqb c "."%char then readDigits 10 r i 0 else (i, O, r1)
      | EmptyString => (i, O, r1)
      end in
    if (ci + cf =? 0)%nat then NaN
    else
      match readExponent r2 with
      | Some e => decimalToNumber m (e - Z.of_nat cf)
      | None => NaN
      end.

(** [0x], [0o] and [0b] literals. *)
Definition radixLiteral (s : string) : option Number :=
  match s with
  | String z (String x r) =>
      if Ascii.eqb z "0"%char then
        let n := nat_of_ascii x in
        let radix := if ((n =? 120) || (n =? 88))%nat then 16
                     else if ((n =? 111) || (n =? 79))%nat then 8
                     else if ((n =? 98) || (n =? 66))%nat then 2
                     else 0 in
        if radix =? 0 then None
        else
          let '(v, count, rest) := readDigits radix r 0 0 in
          if (count =? 0)%nat || negb (rest =? "")%string then Some NaN
          else Some (if v =? 0 then Finite (Qmake 0 1) else roundToDouble v 1)
      else None
  | _ => None
  end.

(** [ToNumber] on a string, by the grammar of [StringNumericLiteral]. *)
Definition exampleStringToNumber (s : string) : Number :=
  let t := trim s in
  if (t =? "")%string then Finite (Qmake 0 1)
  else
    match radixLiteral t with
    | Some n => n
    | None =>
        let (negative, r) := readSign t in
        let n := unsignedDecimal r in
        if negative then negate n else n
    end.

(** The decimal digits of a positive integer. *)
Definition digitsOf (n : Z) : string :=
  match n with
  | Zpos p => NilZero.string_of_uint (Pos.to_uint p)
  | _ => "0"
  end.

(** The least [n] from [n0] on with [num / den < 10 ^ n]. *)
Fixpoint leastPowerAbove (fuel : nat) (num den n0 : Z) : Z :=
  match fuel with
  | O => n0
  | S fuel =>
      if (if 0 <=? n0 then num <? den * 10 ^ n0 else num * 10 ^ (- n0) <? den)
      then n0
      else leastPowerAbove fuel num den (n0 + 1)
  end.

(** [n] with [10 ^ (n - 1) <= num / den < 10 ^ n]. *)
Definition decimalExponent (num den : Z) : Z :=
  leastPowerAbove 8 num den ((Z.log2 num - Z.log2 den - 1) * 30103 / 100000 - 1).

(** [num / den * 10 ^ x], rounded to the nearest integer, ties to even. *)
Definition scaledRound (num den x : Z) : Z :=
  let N := if 0 <=? x then num * 10 ^ x else num in
  let D := if 0 <=? x then den else den * 10 ^ (- x) in
  let q := N / D in
  let r := N mod D in
  if (D <? 2 * r) || ((D =? 2 * r) && Z.odd q) then q + 1 else q.

Definition sameNumber (a b : Number) : bool :=
  match a, b with
  | Finite p, Finite q => Qeq_bool p q
  | Infinity x, Infinity y => Bool.eqb x y
  | _, _ => false
  end.

(** The shortest decimal [s * 10 ^ (n - k)], [s] of [k] digits, that reads
    back as [num / den]; 17 digits when none of fewer does. *)
Fixpoint shortestDigits (fuel : nat) (k : Z) (num den n : Z) : Z * Z :=
  let s := scaledRound num den (k - n) in
  let '(s, n) := if s =? 10 ^ k then (10 ^ (k - 1), n + 1) else (s, n) in
  match fuel with
  | O => (s, n)
  | S fuel =>
      if sameNumber (decimalToNumber s (n - k)) (Finite (Qmake num (Z.to_pos den)))
      then (s, n)
      else shortestDigits fuel (k + 1) num den n
  end.

(** [Number::toString] in radix 10. *)
Definition positiveToString (num den : Z) : string :=
  let '(s, n) := shortestDigits 16 1 num den (decimalExponent num den) in
  let digits := digitsOf s in
  let k := Z.of_nat (String.length digits) in
  if (k <=? n) && (n <=? 21) then
    digits ++ repeatString "0" (Z.to_nat (n - k))
  else if (0 <? n) && (n <=? 21) then
    substring 0 (Z.to_nat n) digits ++ "."
    ++ substring (Z.to_nat n) (Z.to_nat (k - n)) digits
  else if (-6 <? n) && (n <=? 0) then
    "0." ++ repeatString "0" (Z.to_nat (- n)) ++ digits
  else
    let e := n - 1 in
    let exponent := (if e <? 0 then "-" else "+") ++ digitsOf (Z.abs e) in
    if k =? 1 then digits ++ "e" ++ exponent
    else substring 0 1 digits ++ "." ++ substring 1 (Z.to_nat (k - 1)) digits
         ++ "e" ++ exponent.

Definition exampleNumberToString (n : Number) : string :=
  match n with
  | NaN => "NaN"
  | Infinity negative => if negative then "-Infinity" else "Infinity"
  | Finite q =>
      if Qnum q =? 0 then "0"
      else (if Qnum q <? 0 then "-" else "")
           ++ positiveToString (Z.abs (Qnum q)) (Zpos (Qden q))
  end.

End ExampleNumbers.

(** *** JSON *)

(** [JSON.parse] on texts of the Latin-1 range: white space, the three
    literal names, numbers, strings with their escapes, arrays and
    objects.  The result is [None] for a text that is not JSON (and for an
    escape beyond U+00FF, which lies outside the range). *)
Fixpoint skipWhiteSpace (s : string) : string :=
  match s with
  | EmptyString => s
  | String c r =>
      let n := nat_of_ascii c in
      if ((n =? 32) || (n =? 9) || (n =? 10) || (n =? 13))%nat then skipWhiteSpace r
      else s
  end.

(** The character an escape stands for. *)
Definition unescape (c : ascii) : option ascii :=
  let n := nat_of_ascii c in
  (if (n =? 34) || (n =? 92) || (n =? 47) then Some c
   else if n =? 98 then Some (ascii_of_nat 8)
   else if n =? 102 then Some (ascii_of_nat 12)
   else if n =? 110 then Some (ascii_of_nat 10)
   else if n =? 114 then Some (ascii_of_nat 13)
   else if n =? 116 then Some (ascii_of_nat 9)
   else None)%nat.

Definition prepend (c : ascii) (r : option (string * string)) : option (string * string) :=
  match r with
  | Some (t, rest) => Some (String c t, rest)
  | None => None
  end.

(** A string behind its opening quote: its characters, and what follows
    the closing quote. *)
Fixpoint readString (s : string) : option (string * string) :=
  match s with
  | EmptyString => None
  | String c r =>
      let n := nat_of_ascii c in
      if (n =? 34)%nat then Some ("", r)
      else if (n =? 92)%nat then
        match r with
        | EmptyString => None
        | String e r' =>
            if Ascii.eqb e "u"%char then
              match r' with
              | String a (String b (String h (String l r''))) =>
                  match digitValue 16 a, digitValue 16 b, digitValue 16 h, digitValue 16 l with
                  | Some 0%Z, Some 0%Z, Some vh, Some vl =>
                      prepend (ascii_of_nat (Z.to_nat (16 * vh + vl))) (readString r'')
                  | _, _, _, _ => None
                  end
              | _ => None
              end
            else
              match unescape e with
              | Some u => prepend u (readString r')
              | None => None
              end
        end
      else if (n <? 32)%nat then None
      else prepend c (readString r)
  end.

(** A number: an optional minus, digits without a leading zero, an
    optional fraction and an optional exponent. *)
Definition readNumber (s : string) : option (Number * string) :=
  let (negative, r) :=
    match s with
    | String c r => if Ascii.eqb c "-"%char then (true, r) else (false, s)
    | EmptyString => (false, s)
    end in
  let '(i, ci, r1) := readDigits 10 r 0%Z 0 in
  if (ci =? 0)%nat || ((1 <? ci)%nat && startsWith r "0") then None
  else
    let fraction :=
      match r1 with
      | String c r' =>
          if Ascii.eqb c "."%char then
            let '(m, cf, r2) := readDigits 10 r' i 0 in
            if (cf =? 0)%nat then None else Some (m, cf, r2)
          else Some (i, O, r1)
      | EmptyString => Some (i, O, r1)
      end in
    match fraction with
    | None => None
    | Some (m, cf, r2) =>
        let exponent :=
          match r2 with
          | String c r' =>
              if Ascii.eqb c "e"%char || Ascii.eqb c "E"%char then
                let (eneg, r'') := readSign r' in
                let '(e, ce, r3) := readDigits 10 r'' 0%Z 0 in
                if (ce =? 0)%nat then None
                else Some ((if eneg then - e else e)%Z, r3)
              else Some (0%Z, r2)
          | EmptyString => Some (0%Z, r2)
          end in
        match exponent with
        | None => None
        | Some (e, rest) =>
            let n := decimalToNumber m (e - Z.of_nat cf) in
            Some (if negative then negate n else n, rest)
        end
    end.

Fixpoint parseValue (fuel : nat) (s : string) : option (JSValue * string) :=
  match fuel with
  | O => None
  | S fuel =>
      match skipWhiteSpace s with
      | EmptyString => None
      | String c r as t =>
          let n := nat_of_ascii c in
          if (n =? 123)%nat then
            match skipWhiteSpace r with
            | String c' r' as t' =>
                if (nat_of_ascii c' =? 125)%nat then Some (JSObject [], r')
                else parseMembers fuel t' []
            | EmptyString => None
            end
          else if (n =? 91)%nat then
            match skipWhiteSpace r with
            | String c' r' as t' =>
                if (nat_of_ascii c' =? 93)%nat then Some (JSArray [], r')
                else parseElements fuel t' []
            | EmptyString => None
            end
          else if (n =? 34)%nat then
            match readString r with
            | Some (v, rest) => Some (JSString v, rest)
            | None => None
            end
          else if startsWith t "null" then Some (JSNull, substring 4 (String.length t) t)
          else if startsWith t "true" then
            Some (JSBoolean true, substring 4 (String.length t) t)
          else if startsWith t "false" then
            Some (JSBoolean false, substring 5 (String.length t) t)
          else
            match readNumber t with
            | Some (v, rest) => Some (JSNumber v, rest)
            | None => None
            end
      end
  end

with parseElements (fuel : nat) (s : string) (before : list JSValue)
  : option (JSValue * string) :=
  match fuel with
  | O => None
  | S fuel =>
      match parseValue fuel s with
      | None => None
      | Some (v, rest) =>
          match skipWhiteSpace rest with
          | String c r =>
              let n := nat_of_ascii c in
              if (n =? 44)%nat then parseElements fuel r (v :: before)
              else if (n =? 93)%nat then Some (JSArray (rev (v :: before)), r)
              else None
          | EmptyString => None
          end
      end
  end

with parseMembers (fuel : nat) (s : string) (before : list (string * JSValue))
  : option (JSValue * string) :=
  match fuel with
  | O => None
  | S fuel =>
      match skipWhiteSpace s with
      | String q r =>
          if (nat_of_ascii q =? 34)%nat then
            match readString r with
            | None => None
            | Some (key, rest) =>
                match skipWhiteSpace rest with
                | String colon rest' =>
                    if (nat_of_ascii colon =? 58)%nat then
                      match parseValue fuel rest' with
                      | None => None
                      | Some (v, rest'') =>
                          match skipWhiteSpace rest'' with
                          | String c r' =>
                              let n := nat_of_ascii c in
                              if (n =? 44)%nat then parseMembers fuel r' ((key, v) :: before)
                              else if (n =? 125)%nat then
                                Some (JSObject (rev ((key, v) :: before)), r')
                              else None
                          | EmptyString => None
                          end
                      end
                    else None
                | EmptyString => None
                end
            end
          else None
      | EmptyString => None
      end
  end.

Definition exampleParse (s : string) : option JSValue :=
  match parseValue (2 * String.length s + 2) s with
  | Some (v, rest) => if skipWhiteSpace rest =? "" then Some v else None
  | None => None
  end.

(** [v[name]] for a value that came from JSON: of equal keys the last one
    counts; a value that is no object has no such property. *)
Definition property (name : string) (v : JSValue) : JSValue :=
  match v with
  | JSObject properties =>
      fold_left (fun found p => if fst p =? name then snd p else found)
                properties JSUndefined
  | _ => JSUndefined
  end.

(** The values of a list, if each is there. *)
Fixpoint allSome {A : Type} (l : list (option A)) : option (list A) :=
  match l with
  | [] => Some []
  | Some x :: r =>
      match allSome r with
      | Some xs => Some (x :: xs)
      | None => None
      end
  | None :: _ => None
  end.

(** A parsed value read at a declared type: a field that is absent or
    [null] is absent, and the result is [None] for a value that does not
    have the declared type, which the examples do not use. *)
Definition optionalString (v : JSValue) : option (option string) :=
  match v with
  | JSString s => Some (Some s)
  | JSUndefined | JSNull => Some None
  | _ => None
  end.

Definition toMark (v : JSValue) : option Mark :=
  match property "type" v with
  | JSString t => Some {| mark_type := t |}
  | _ => None
  end.

Fixpoint toNode (fuel : nat) (v : JSValue) : option ProseMirrorNode :=
  match fuel with
  | O => None
  | S fuel =>
      match property "type" v,
            match property "content" v with
            | JSArray l => allSome (map (toNode fuel) l)
            | JSUndefined | JSNull => Some []
            | _ => None
            end,
            optionalString (property "text" v),
            match property "marks" v with
            | JSArray l => option_map Some (allSome (map toMark l))
            | JSUndefined | JSNull => Some None
            | _ => None
            end with
      | JSString type, Some content, Some text, Some marks =>
          Some (PMNode type content text marks (property "level" (property "attrs" v)))
      | _, _, _, _ => None
      end
  end.

Definition toPanel (fuel : nat) (v : JSValue) : option (option LastViewedPanel) :=
  match v with
  | JSUndefined | JSNull => Some None
  | _ =>
      match property "content" v with
      | JSUndefined | JSNull => Some (Some {| panel_content := None |})
      | content =>
          match toNode fuel content with
          | Some node => Some (Some {| panel_content := Some node |})
          | None => None
          end
      end
  end.

Definition toDocument (fuel : nat) (v : JSValue) : option GranolaDocument :=
  match property "id" v, property "title" v, property "created_at" v,
        toPanel fuel (property "last_viewed_panel" v),
        optionalString (property "notes_markdown" v) with
  | JSString i, JSString t, JSString c, Some panel, Some notes =>
      Some {| id := i; title := t; created_at := c;
              last_viewed_panel := panel; notes_markdown := notes |}
  | _, _, _, _, _ => None
  end.

Definition toSegment (v : JSValue) : option TranscriptSegment :=
  match property "source" v, property "text" v with
  | JSString s, JSString t => Some {| source := s; segment_text := t |}
  | _, _ => None
  end.

Definition exampleParseConfig (s : string) : option (Nullable GranolaConfig) :=
  match exampleParse s with
  | None => None
  | Some JSNull => Some IsNull
  | Some v =>
      match optionalString (property "workos_tokens" v) with
      | Some field => Some (NotNull {| workos_tokens := field |})
      | None => None
      end
  end.

Definition exampleParseTokens (s : string) : option (Nullable WorkOSTokens) :=
  match exampleParse s with
  | None => None
  | Some JSNull => Some IsNull
  | Some v =>
      match optionalString (property "access_token" v) with
      | Some field => Some (NotNull {| access_token := field |})
      | None => None
      end
  end.

Definition exampleParseDocuments (s : string)
  : option (Nullable GetDocumentsResponse) :=
  match exampleParse s with
  | None => None
  | Some JSNull => Some IsNull
  | Some v =>
      match property "docs" v with
      | JSArray l =>
          match allSome (map (toDocument (String.length s)) l) with
          | Some documents => Some (NotNull {| docs := Some documents |})
          | None => None
          end
      | JSUndefined | JSNull => Some (NotNull {| docs := None |})
      | _ => None
      end
  end.

Definition exampleParseTranscript (s : string) : option TranscriptResponse :=
  match exampleParse s with
  | None => None
  | Some (JSArray l) =>
      match allSome (map toSegment l) with
      | Some segments => Some (SegmentArray segments)
      | None => None
      end
  | Some v => Some (NotAnArray v)
  end.

(** *** Dates *)

(** [new Date(s).getTime()] on the dates of the examples, and on the
    texts of the examples that are no dates. *)
Definition exampleDate (s : string) : option Z :=
  if s =? "2024-01-01" then Some 1704067200000%Z
  else if s =? "2024-02-01" then Some 1706745600000%Z
  else if s =? "2024-03-01" then Some 1709251200000%Z
  else None.

(** *** Sorting *)

(** The sort of V8 on an array shorter than 64 elements.  For a consistent
    comparator it is the stable order, as in every engine.  Otherwise it
    is what V8's insertion sort leaves: the longest run at the start of
    the array (turned round when it descends) is kept, and each further
    element is put in by a binary search of its place. *)
Section ExampleSort.
Context {A : Type} (comparefn : A -> A -> option Z).

Fixpoint binarySearch (fuel : nat) (pivot : A) (work : list A) (left right : nat) : nat :=
  match fuel with
  | O => left
  | S fuel =>
      if (left <? right)%nat then
        let mid := (left + (right - left) / 2)%nat in
        match nth_error work mid with
        | Some element =>
            if (sortCompare comparefn pivot element <? 0)%Z
            then binarySearch fuel pivot work left mid
            else binarySearch fuel pivot work (S mid) right
        | None => left
        end
      else left
  end.

Definition insertAt (k : nat) (x : A) (l : list A) : list A :=
  (firstn k l ++ x :: skipn k l)%list.

Definition binaryInsertionSort (run rest : list A) : list A :=
  fold_left (fun work pivot =>
               insertAt (binarySearch (S (List.length work)) pivot work 0
                                      (List.length work)) pivot work)
            rest run.

(** The run so far, last element first, and the elements behind it. *)
Fixpoint extendRun (descending : bool) (previous : A) (run rest : list A)
  : list A * list A :=
  match rest with
  | [] => (run, [])
  | current :: rest' =>
      let order := sortCompare comparefn current previous in
      if (if descending then (0 <=? order)%Z else (order <? 0)%Z) then (run, rest)
      else extendRun descending current (current :: run) rest'
  end.

Definition insertionSort (l : list A) : list A :=
  match l with
  | low :: next :: rest =>
      let descending := (sortCompare comparefn next low <? 0)%Z in
      let (run, rest) := extendRun descending next [next; low] rest in
      binaryInsertionSort (if descending then run else rev run) rest
  | _ => l
  end.

Definition exampleSort (l : list A) : list A :=
  if consistent comparefn l then stableSort comparefn l else insertionSort l.
End ExampleSort.

(** *** Documents and worlds *)

(** A content tree: a heading and a paragraph with marked text. *)
Definition exampleTree : ProseMirrorNode :=
  PMNode "doc"
    [ PMNode "heading" [ PMNode "text" [] (Some "Agenda") None JSUndefined ]
        None None (JSNumber (Finite (Qmake 2 1)));
      PMNode "paragraph"
        [ PMNode "text" [] (Some "x") (Some [ {| mark_type := "bold" |};
                                              {| mark_type := "italic" |} ])
            JSUndefined ]
        None None JSUndefined ]
    None None JSUndefined.

(** Headings with a level the renderer does not expect. *)
Definition headingWithLevel (level : JSValue) : ProseMirrorNode :=
  PMNode "heading" [ PMNode "text" [] (Some "Title") None JSUndefined ]
         None None level.

Definition negativeHeading : ProseMirrorNode :=
  headingWithLevel (JSNumber (Finite (Qmake (-1) 1))).
Definition stringHeading : ProseMirrorNode := headingWithLevel (JSString "-1").
Definition objectHeading : ProseMirrorNode := headingWithLevel (JSObject []).
Definition arrayHeading : ProseMirrorNode :=
  headingWithLevel (JSArray [ JSNumber (Finite (Qmake 3 1)) ]).
Definition negativeArrayHeading : ProseMirrorNode :=
  headingWithLevel (JSArray [ JSNumber (Finite (Qmake (-1) 1)) ]).
Definition noPrimitiveHeading : ProseMirrorNode :=
  headingWithLevel (JSObject [ ("toString", JSNumber (Finite (Qmake 1 1))) ]).
Definition hugeHeading : ProseMirrorNode :=
  headingWithLevel (JSNumber (Finite (Qmake 10000000000 1))).

Definition weeklySync : GranolaDocument :=
  {| id := "doc-1"; title := "Weekly sync"; created_at := "2024-03-01";
     last_viewed_panel := None; notes_markdown := None |}.

Definition samJanuary : GranolaDocument :=
  {| id := "doc-2"; title := "Sam 1:1"; created_at := "2024-01-01";
     last_viewed_panel := None; notes_markdown := Some "Talked about goals." |}.

Definition samFebruary : GranolaDocument :=
  {| id := "doc-3"; title := "SAM / Alex 1x1"; created_at := "2024-02-01";
     last_viewed_panel := Some {| panel_content := Some exampleTree |};
     notes_markdown := None |}.

Definition exampleDocuments : list GranolaDocument :=
  [ weeklySync; samJanuary; samFebruary ].




(** A document without notes whose content tree is the heading of level
    -1, and one whose content tree renders to the empty string. *)
Definition brokenDocument : GranolaDocument :=
  {| id := "doc-6"; title := "Sam 1:1 retro"; created_at := "2024-03-01";
     last_viewed_panel := Some {| panel_content := Some negativeHeading |};
     notes_markdown := None |}.

Definition blankDocument : GranolaDocument :=
  {| id := "doc-7"; title := "Sam 1:1 kickoff"; created_at := "2024-03-01";
     last_viewed_panel :=
       Some {| panel_content := Some (PMNode "doc" [] None None JSUndefined) |};
     notes_markdown := None |}.

Definition exampleSegments : list TranscriptSegment :=
  [ {| source := "microphone"; segment_text := "Hi Sam" |};
    {| source := "system"; segment_text := "Hello" |};
    {| source := "phone"; segment_text := "(noise)" |} ].

(** The texts of the example worlds.  The inner token text stands escaped
    in the outer one, as in the credential file. *)
Definition tokensText : string :=
  "{" ++ quoted "access_token" ++ ":" ++ quoted "tok-123" ++ "}".

Definition configText : string :=
  "{" ++ quoted "workos_tokens" ++ ":" ++ dq
  ++ "{\" ++ dq ++ "access_token\" ++ dq ++ ":\" ++ dq ++ "tok-123\" ++ dq ++ "}"
  ++ dq ++ "}".

(** The same two texts with the empty string as the token. *)
Definition emptyTokenText : string :=
  "{" ++ quoted "access_token" ++ ":" ++ quoted "" ++ "}".

Definition emptyTokenConfigText : string :=
  "{" ++ quoted "workos_tokens" ++ ":" ++ dq
  ++ "{\" ++ dq ++ "access_token\" ++ dq ++ ":\" ++ dq ++ "\" ++ dq ++ "}"
  ++ dq ++ "}".

(** A credential file whose [workos_tokens] is the text [null]. *)
Definition nullTokensConfigText : string :=
  "{" ++ quoted "workos_tokens" ++ ":" ++ quoted "null" ++ "}".

Definition segmentJSON (s : TranscriptSegment) : string :=
  "{" ++ quoted "source" ++ ":" ++ quoted (source s) ++ ","
  ++ quoted "text" ++ ":" ++ quoted (segment_text s) ++ "}".

Definition transcriptText : string :=
  "[" ++ String.concat "," (map segmentJSON exampleSegments) ++ "]".

(** The JSON text of a value, of a content tree and of a document, for
    strings that need no escape: every field that is there is written. *)
Fixpoint valueJSON (v : JSValue) : string :=
  match v with
  | JSUndefined | JSNull => "null"
  | JSBoolean b => if b then "true" else "false"
  | JSNumber n => exampleNumberToString n
  | JSString s => quoted s
  | JSArray l => "[" ++ String.concat "," (map valueJSON l) ++ "]"
  | JSObject properties =>
      "{" ++ String.concat ","
               (map (fun p : string * JSValue => let (key, value) := p in
                              quoted key ++ ":" ++ valueJSON value) properties)
      ++ "}"
  end.

Definition markJSON (m : Mark) : string :=
  "{" ++ quoted "type" ++ ":" ++ quoted (mark_type m) ++ "}".

Fixpoint nodeJSON (n : ProseMirrorNode) : string :=
  match n with
  | PMNode type content text marks level =>
      "{" ++ quoted "type" ++ ":" ++ quoted type
      ++ match level with
         | JSUndefined => ""
         | _ => "," ++ quoted "attrs" ++ ":{" ++ quoted "level" ++ ":"
                ++ valueJSON level ++ "}"
         end
      ++ match content with
         | [] => ""
         | _ => "," ++ quoted "content" ++ ":["
                ++ String.concat "," (map nodeJSON content) ++ "]"
         end
      ++ match text with
         | Some t => "," ++ quoted "text" ++ ":" ++ quoted t
         | None => ""
         end
      ++ match marks with
         | Some l => "," ++ quoted "marks" ++ ":["
                     ++ String.concat "," (map markJSON l) ++ "]"
         | None => ""
         end
      ++ "}"
  end.

Definition documentJSON (d : GranolaDocument) : string :=
  "{" ++ quoted "id" ++ ":" ++ quoted (id d) ++ ","
  ++ quoted "title" ++ ":" ++ quoted (title d) ++ ","
  ++ quoted "created_at" ++ ":" ++ quoted (created_at d)
  ++ match notes_markdown d with
     | Some notes => "," ++ quoted "notes_markdown" ++ ":" ++ quoted notes
     | None => ""
     end
  ++ match last_viewed_panel d with
     | Some {| panel_content := Some content |} =>
         "," ++ quoted "last_viewed_panel" ++ ":{" ++ quoted "content" ++ ":"
         ++ nodeJSON content ++ "}"
     | Some {| panel_content := None |} => "," ++ quoted "last_viewed_panel" ++ ":{}"
     | None => ""
     end
  ++ "}".

Definition listingJSON (l : list GranolaDocument) : string :=
  "{" ++ quoted "docs" ++ ":[" ++ String.concat "," (map documentJSON l) ++ "]}".

(** The body that lists [exampleDocuments]. *)
Definition documentsText : string := listingJSON exampleDocuments.

(** A service with 150 documents, [doc-0] the most recent. *)
Definition numberedDocument (i : nat) : GranolaDocument :=
  {| id := "doc-" ++ natToString i; title := "Meeting " ++ natToString i;
     created_at := "2024-01-01"; last_viewed_panel := None;
     notes_markdown := Some ("Notes " ++ natToString i) |}.

Definition longStore : list GranolaDocument := map numberedDocument (seq 0 150).

Definition examplePath : string :=
  "/Users/sam/Library/Application Support/Granola/supabase.json".

(** A logged-in user; the service lists [exampleDocuments] and has a
    transcript for [doc-2] only. *)
Definition exampleWorld : World := {|
  homedir := "/Users/sam";
  files := fun p => if p =? examplePath then Some configText else None;
  fetch := fun url auth body =>
    if negb (auth =? "Bearer tok-123") then
      Some {| ok := false; status := 401; body_text := "Unauthorized" |}
    else
      match body with
      | GetDocumentsBody _ _ =>
          Some {| ok := true; status := 200; body_text := documentsText |}
      | GetTranscriptBody d =>
          if d =? "doc-2" then
            Some {| ok := true; status := 200; body_text := transcriptText |}
          else Some {| ok := true; status := 200; body_text := "[]" |}
      end
|}.

(** The same user against a service that answers every listing request
    with the body [text], and has no transcripts. *)
Definition worldAnswering (text : string) : World := {|
  homedir := "/Users/sam";
  files := fun p => if p =? examplePath then Some configText else None;
  fetch := fun url auth body =>
    match body with
    | GetDocumentsBody _ _ => Some {| ok := true; status := 200; body_text := text |}
    | GetTranscriptBody _ => Some {| ok := true; status := 200; body_text := "[]" |}
    end
|}.

(** The same user against the service of [longStore]. *)
Definition longWorld : World := {|
  homedir := "/Users/sam";
  files := fun p => if p =? examplePath then Some configText else None;
  fetch := fun url auth body =>
    match body with
    | GetDocumentsBody limit offset =>
        Some {| ok := true; status := 200;
                body_text := listingJSON (serviceListing longStore (Z.to_nat limit)
                                                         (Z.to_nat offset)) |}
    | GetTranscriptBody _ => None
    end
|}.

Definition brokenWorld : World := worldAnswering (listingJSON [ brokenDocument ]).
Definition blankWorld : World := worldAnswering (listingJSON [ blankDocument ]).
Definition nullWorld : World := worldAnswering "null".

(** A machine where Granola was never installed. *)
Definition emptyWorld : World := {|
  homedir := "/Users/sam";
  files := fun _ => None;
  fetch := fun _ _ _ => None
|}.

(** A machine whose credential file has the content [text]. *)
Definition worldWithConfig (text : string) : World := {|
  homedir := "/Users/sam";
  files := fun p => if p =? examplePath then Some text else None;
  fetch := fun _ _ _ => None
|}.

(** A credential file whose inner [access_token] is the empty string, and
    one whose [workos_tokens] is the text [null]. *)
Definition emptyTokenWorld : World := worldWithConfig emptyTokenConfigText.
Definition nullTokensWorld : World := worldWithConfig nullTokensConfigText.

(** The instance before its first call, and after a call in the example
    worlds. *)
Definition fresh : GranolaAPI := {| accessToken := None |}.
Definition loggedIn : GranolaAPI := {| accessToken := Some "tok-123" |}.

(** Three children of an ordered list, the second an empty paragraph. *)
Definition paragraphOf (t : string) : ProseMirrorNode :=
  PMNode "paragraph" [ PMNode "text" [] (Some t) None JSUndefined ] None None JSUndefined.

Definition orderedChildren : list ProseMirrorNode :=
  [ paragraphOf "a"; PMNode "paragraph" [] None None JSUndefined; paragraphOf "c" ].

(** ** Further notions used in the statements *)

(** The delimiter a mark puts on both sides of the text, empty for a mark
    the renderer does not know. *)
Definition markDelimiter (mark : Mark) : string :=
  if mark_type mark =? "bold" then "**"
  else if mark_type mark =? "italic" then "*"
  else if mark_type mark =? "code" then backtick
  else "".

(** Every character of the string is white space. *)
Fixpoint allWhiteSpace (s : string) : bool :=
  match s with
  | EmptyString => true
  | String c r => isWhiteSpace c && allWhiteSpace r
  end.


(** The world of [exampleWorld] after the credential file was removed. *)
Definition loggedOutWorld : World := {|
  homedir := "/Users/sam";
  files := fun _ => None;
  fetch := fetch exampleWorld
|}.

(** ** The tool handlers of [index.ts] *)

(** [{ id, title, created_at }], an entry of the summary of a listing. *)
Record DocumentSummary : Type := {
  summary_id : string;
  summary_title : string;
  summary_created_at : string
}.

(** What a handler returns: the text of its one content item, and
    [isError], which is [false] where the source leaves it out. *)
Record ToolResult : Type := { result_text : string; isError : bool }.

(** Built-in functions the handlers call; parameters like those of
    [Host]. *)
Class Runtime : Type := {
  (** [JSON.stringify(summary, null, 2)]. *)
  JSON_stringify : list DocumentSummary -> string;
  (** [new Date(s).toLocaleDateString("en-US", {...})] with the options of
      the source; it does not throw. *)
  Date_toLocaleDateString : string -> string;
  (** The [message] of an exception the platform throws. *)
  builtin_message : Exception -> string
}.

(** [try { m } catch (error) { handler }]. *)
Definition tryCatchWith {A} (m : Method A) (handler : Exception -> Method A)
  : Method A :=
  fun this =>
    match m this with
    | (Normal a, this') => (Normal a, this')
    | (Throw error, this') => handler error this'
    end.

(** [{ content: [{ type: "text", text }] }], without and with
    [isError: true]. *)
Definition textResult (text : string) : ToolResult :=
  {| result_text := text; isError := false |}.

Definition errorResult (text : string) : ToolResult :=
  {| result_text := text; isError := true |}.

(** [(doc) => ({ id: doc.id, title: doc.title, created_at: doc.created_at })]. *)
Definition summarize (doc : GranolaDocument) : DocumentSummary :=
  {| summary_id := id doc; summary_title := title doc;
     summary_created_at := created_at doc |}.

Section Handlers.
Context {H : Host} {R : Runtime} (w : World).

(** [error instanceof Error ? error.message : String(error)]; every
    exception of the model is an [Error]. *)
Definition errorMessage (error : Exception) : string :=
  match error with
  | Error message => message
  | RangeError | SyntaxError | TypeError | FetchFailed => builtin_message error
  end.

(** The handler of the tool [get_recent_documents]; [limit] defaults to
    20. *)
Definition get_recent_documents (limit : option Z) : Method ToolResult :=
  let limit := match limit with Some l => l | None => 20%Z end in
  tryCatchWith
    (documents <~ getRecentDocuments w limit 0 ;;
     let summary := map summarize documents in
     ret (textResult (JSON_stringify summary)))
    (fun error =>
       ret (errorResult ("Error fetching documents: " ++ errorMessage error))).

(** The handler of the tool [get_document]; [transcript] defaults to
    [false]. *)
Definition get_document (document_id : string) (transcript : option bool)
  : Method ToolResult :=
  let transcript := match transcript with Some b => b | None => false end in
  tryCatchWith
    (if transcript then
       transcriptText <~ getDocumentTranscript w document_id ;;
       if negb (truthyOpt transcriptText) then
         ret (textResult "No transcript available for this document")
       else ret (textResult (orEmpty transcriptText))
     else
       notes <~ getDocumentNotes w document_id ;;
       if negb (truthyOpt notes) then
         ret (textResult "No AI notes available for this document")
       else ret (textResult (orEmpty notes)))
    (fun error =>
       ret (errorResult ("Error fetching document: " ++ errorMessage error))).

(** The handler of the tool [search_documents]; [limit] defaults to 20. *)
Definition search_documents (query : string) (limit : option Z) : Method ToolResult :=
  let limit := match limit with Some l => l | None => 20%Z end in
  tryCatchWith
    (documents <~ searchDocuments w query limit ;;
     let summary := map summarize documents in
     ret (textResult (if (0 <? List.length summary)%nat then JSON_stringify summary
                      else "No documents found matching " ++ quoted query)))
    (fun error =>
       ret (errorResult ("Error searching documents: " ++ errorMessage error))).

(** The handler of the tool [get_latest_1on1]; [transcript] defaults to
    [false]. *)
Definition get_latest_1on1 (person_name : string) (transcript : option bool)
  : Method ToolResult :=
  let transcript := match transcript with Some b => b | None => false end in
  tryCatchWith
    (result <~ findLatest1on1 w person_name ;;
     match result with
     | None => ret (textResult ("No 1:1 meeting found with " ++ quoted person_name))
     | Some {| document := document |} =>
         let formattedDate := Date_toLocaleDateString (created_at document) in
         let output := "# " ++ title document ++ LF ++ LF in
         let output := output ++ "**Date:** " ++ formattedDate ++ LF ++ LF in
         let output := output ++ "---" ++ LF ++ LF in
         if transcript then
           transcriptText <~ getDocumentTranscript w (id document) ;;
           ret (textResult
                  (if truthyOpt transcriptText then output ++ orEmpty transcriptText
                   else output ++ "*No transcript available for this meeting*"))
         else
           notes <~ getDocumentNotes w (id document) ;;
           ret (textResult
                  (if truthyOpt notes then output ++ orEmpty notes
                   else output ++ "*No AI notes available for this meeting*"))
     end)
    (fun error => ret (errorResult ("Error finding 1:1: " ++ errorMessage error))).

(** The head of the text of [get_latest_1on1]: the title, the date and a
    rule. *)
Definition meetingHeader (document : GranolaDocument) : string :=
  "# " ++ title document ++ LF ++ LF
  ++ "**Date:** " ++ Date_toLocaleDateString (created_at document) ++ LF ++ LF
  ++ "---" ++ LF ++ LF.

End Handlers.

(** A runtime for the examples: the summary printed as
    [JSON.stringify(..., null, 2)] prints fields that need no escaping,
    the dates of the example documents as a process in UTC formats them,
    and the messages of Node.js. *)
Definition summaryJSON (s : DocumentSummary) : string :=
  "  {" ++ LF
  ++ "    " ++ quoted "id" ++ ": " ++ quoted (summary_id s) ++ "," ++ LF
  ++ "    " ++ quoted "title" ++ ": " ++ quoted (summary_title s) ++ "," ++ LF
  ++ "    " ++ quoted "created_at" ++ ": " ++ quoted (summary_created_at s) ++ LF
  ++ "  }".

Definition exampleRuntime : Runtime := {|
  JSON_stringify := fun l =>
    match l with
    | [] => "[]"
    | _ => "[" ++ LF ++ String.concat ("," ++ LF) (map summaryJSON l) ++ LF ++ "]"
    end;
  Date_toLocaleDateString := fun s =>
    if s =? "2024-01-01" then "Monday, January 1, 2024 at 12:00 AM"
    else if s =? "2024-02-01" then "Thursday, February 1, 2024 at 12:00 AM"
    else if s =? "2024-03-01" then "Friday, March 1, 2024 at 12:00 AM"
    else "Invalid Date";
  builtin_message := fun e =>
    match e with
    | Error message => message
    | RangeError => "Invalid count value: -1"
    | SyntaxError => "Unexpected end of JSON input"
    | TypeError => "Cannot read properties of null"
    | FetchFailed => "fetch failed"
    end
|}.

Section ListItems.
Context {H : Host}.

(** [item] is a [listItem] whose children render, one behind the other, to
    [r]. *)
Definition listItemOf (item : ProseMirrorNode) (r : string) : Prop :=
  exists content text marks level children,
    item = PMNode "listItem" content text marks level
    /\ mapM processNode content = Normal children
    /\ r = flat children.
End ListItems.

(** Two paragraphs of the same render, the second with an empty mark
    list. *)
Definition paragraphOfUnmarked (t : string) : ProseMirrorNode :=
  PMNode "paragraph" [ PMNode "text" [] (Some t) (Some []) JSUndefined ]
         None None JSUndefined.

(** Two list items with a text each. *)
Definition listItemWith (t : string) : ProseMirrorNode :=
  PMNode "listItem" [ PMNode "text" [] (Some t) None JSUndefined ] None None JSUndefined.

(** * Theorems *)

(** ** Strings *)

Lemma append_nil_r (s : string) : s ++ "" = s.
Proof. induction s as [|c s IH]; simpl; [reflexivity | now rewrite IH]. Qed.

Lemma append_assoc (a b c : string) : (a ++ b) ++ c = a ++ (b ++ c).
Proof. induction a as [|x a IH]; simpl; [reflexivity | now rewrite IH]. Qed.

Lemma startsWith_app (p post : string) : startsWith (p ++ post) p = true.
Proof.
  induction p as [|a p IH]; simpl.
  - reflexivity.
  - now rewrite Ascii.eqb_refl, IH.
Qed.

Lemma startsWith_inv (s p : string) :
  startsWith s p = true -> exists post, s = p ++ post.
Proof.
  revert s; induction p as [|a p IH]; intros s Hs.
  - now exists s.
  - destruct s as [|b s]; simpl in Hs; [discriminate|].
    apply andb_true_iff in Hs as [Hab Hs].
    apply Ascii.eqb_eq in Hab; subst b.
    destruct (IH _ Hs) as [post ->].
    now exists post.
Qed.

Lemma includes_unfold (s sub : string) :
  includes s sub =
  startsWith s sub || match s with EmptyString => false | String _ r => includes r sub end.
Proof. destruct s; reflexivity. Qed.

Lemma includes_intro (pre sub post : string) :
  includes (pre ++ sub ++ post) sub = true.
Proof.
  induction pre as [|c pre IH]; simpl.
  - rewrite includes_unfold, startsWith_app. reflexivity.
  - rewrite IH. apply orb_true_r.
Qed.

Lemma includes_inv (s sub : string) :
  includes s sub = true -> exists pre post, s = pre ++ sub ++ post.
Proof.
  induction s as [|c s IH]; simpl; intros Hs.
  - rewrite orb_false_r in Hs.
    destruct (startsWith_inv _ _ Hs) as [post E].
    now exists "", post.
  - apply orb_true_iff in Hs as [Hs|Hs].
    + destruct (startsWith_inv _ _ Hs) as [post E].
      now exists "", post.
    + destruct (IH Hs) as (pre & post & ->).
      now exists (String c pre), post.
Qed.

Lemma includes_empty (s : string) : includes s "" = true.
Proof. destruct s; reflexivity. Qed.

Lemma toLowerCase_app (a b : string) :
  toLowerCase (a ++ b) = toLowerCase a ++ toLowerCase b.
Proof. induction a as [|c a IH]; simpl; [reflexivity | now rewrite IH]. Qed.

(** Lower-casing is character-wise, so a split of the lower-cased string is
    a split of the string. *)
Lemma toLowerCase_split (t a b : string) :
  toLowerCase t = a ++ b ->
  exists t1 t2, t = t1 ++ t2 /\ toLowerCase t1 = a /\ toLowerCase t2 = b.
Proof.
  revert t; induction a as [|x a IH]; intros t E.
  - now exists "", t.
  - destruct t as [|c t]; simpl in E; [discriminate|].
    injection E as Ex Et.
    destruct (IH _ Et) as (t1 & t2 & -> & E1 & E2).
    exists (String c t1), t2; simpl.
    now rewrite Ex, E1.
Qed.

(** The test of the source, both sides lower-cased, is containment up to
    letter case. *)
Lemma includes_toLowerCase (t q : string) :
  includes (toLowerCase t) (toLowerCase q) = true <-> containsIgnoreCase t q.
Proof.
  split.
  - intros Hi.
    destruct (includes_inv _ _ Hi) as (pre & post & E).
    destruct (toLowerCase_split _ _ _ E) as (t1 & t23 & -> & _ & E23).
    destruct (toLowerCase_split _ _ _ E23) as (t2 & t3 & -> & E2 & _).
    now exists t1, t2, t3.
  - intros (pre & mid & post & -> & E).
    rewrite !toLowerCase_app, E.
    apply includes_intro.
Qed.






Lemma truthy_true (s : string) : truthy s = true <-> s <> "".
Proof.
  unfold truthy; destruct (String.eqb_spec s ""); simpl; split; congruence.
Qed.

Lemma truthy_false (s : string) : truthy s = false <-> s = "".
Proof.
  unfold truthy; destruct (String.eqb_spec s ""); simpl; split; congruence.
Qed.

(** The loop of [join] against the recursive reading of "joined by". *)
Lemma join_from_later (sep R : string) (k : nat) (l : list string) :
  join_from sep R (S k) l = R ++ flat (map (fun x => sep ++ x) l).
Proof.
  revert R k; induction l as [|x l IH]; intros R k; simpl.
  - now rewrite append_nil_r.
  - now rewrite IH, !append_assoc.
Qed.

Lemma concat_flat (sep x : string) (l : list string) :
  String.concat sep (x :: l) = x ++ flat (map (fun y => sep ++ y) l).
Proof.
  revert x; induction l as [|y l IH]; intros x.
  - simpl. now rewrite append_nil_r.
  - change (String.concat sep (x :: y :: l))
      with (x ++ sep ++ String.concat sep (y :: l)).
    rewrite IH. simpl. now rewrite !append_assoc.
Qed.

Lemma join_concat (sep : string) (l : list string) :
  join sep l = String.concat sep l.
Proof.
  unfold join; destruct l as [|x l]; [reflexivity|].
  simpl join_from. now rewrite join_from_later, concat_flat.
Qed.

Lemma join_empty (l : list string) : join "" l = flat l.
Proof.
  rewrite join_concat. destruct l as [|x l]; [reflexivity|].
  rewrite concat_flat. simpl. f_equal.
  induction l as [|y l IH]; simpl; [reflexivity | now rewrite IH].
Qed.

(** ** The renderer *)

(** Induction over a content tree, the hypothesis given for every child. *)
Lemma ProseMirrorNode_tree_ind (P : ProseMirrorNode -> Prop) :
  (forall type content text marks level,
      Forall P content -> P (PMNode type content text marks level)) ->
  forall n, P n.
Proof.
  intros step.
  fix IH 1.
  intros [type content text marks level].
  apply step.
  induction content as [|c content IHc]; constructor.
  - apply IH.
  - exact IHc.
Qed.

Section RendererFacts.
Context {H : Host}.

(** The [orderedList] callback over children that render to [renders],
    the index counted from [i]. *)
Lemma mapiM_numbered (children : list ProseMirrorNode) (renders : list string) (i : nat) :
  Forall2 (fun c s => processNode c = Normal s) children renders ->
  mapiM_from (fun child k => childText <- processNode child ;;
                             Normal (numbered childText k)) i children
  = Normal (map (fun k => numbered (nth (k - i) renders "") k)
                (seq i (List.length renders))).
Proof.
  intros F; revert i; induction F as [|c s children renders Hc F IH]; intros i.
  - reflexivity.
  - simpl mapiM_from. rewrite Hc; simpl bind.
    rewrite IH; simpl.
    rewrite Nat.sub_diag. do 2 f_equal.
    apply map_ext_in; intros k Hk.
    apply in_seq in Hk.
    destruct (k - i) as [|d] eqn:E; [lia|].
    replace (k - S i) with d by lia. reflexivity.
Qed.

Lemma numbered_orderedItem (renders : list string) (k : nat) :
  numbered (nth k renders "") k = orderedItem renders k.
Proof.
  unfold numbered, orderedItem.
  destruct (nth k renders "") as [|c r]; reflexivity.
Qed.

Lemma processNode_orderedList children renders text marks level :
  Forall2 (fun c s => processNode c = Normal s) children renders ->
  processNode (PMNode "orderedList" children text marks level)
  = Normal (orderedListText renders).
Proof.
  intros F. simpl. unfold mapiM.
  rewrite (mapiM_numbered _ _ 0 F); simpl bind.
  rewrite join_empty. unfold orderedListText.
  do 2 f_equal. apply map_ext; intros k.
  rewrite Nat.sub_0_r. apply numbered_orderedItem.
Qed.

(** C3.  In an [orderedList] whose children render to [renders], the child
    at 0-based position [i] appears as its render behind [i + 1], a dot and
    a space when that render is not empty, and not at all when it is empty;
    the positions count every child.  With three children of which the
    second renders empty the text is [1. <first>] followed by
    [3. <third>]. *)
Theorem orderedList_numbers_by_position
  (children : list ProseMirrorNode) (renders : list string)
  (text : option string) (marks : option (list Mark)) (level : JSValue) :
  Forall2 (fun c s => processNode c = Normal s) children renders ->
  processNode (PMNode "orderedList" children text marks level)
  = Normal (orderedListText renders)
  /\ (forall i s, nth_error renders i = Some s -> s <> "" ->
        orderedItem renders i = natToString (i + 1) ++ ". " ++ s)
  /\ (forall i, nth_error renders i = Some "" -> orderedItem renders i = "")
  /\ (forall first third, renders = [first; ""; third] ->
        first <> "" -> third <> "" ->
        processNode (PMNode "orderedList" children text marks level)
        = Normal ("1. " ++ first ++ "3. " ++ third)).
Proof.
  intros F.
  pose proof (processNode_orderedList children renders text marks level F) as E.
  split; [exact E|].
  split; [|split].
  - intros i s Hi Hs. unfold orderedItem.
    rewrite (nth_error_nth _ _ _ Hi).
    destruct s; [contradiction | reflexivity].
  - intros i Hi. unfold orderedItem.
    now rewrite (nth_error_nth _ _ _ Hi).
  - intros first third -> H1 H3. rewrite E.
    unfold orderedListText, orderedItem; simpl.
    destruct first; [contradiction|].
    destruct third; [contradiction|].
    simpl. now rewrite !append_nil_r.
Qed.

(** C4.  A text node renders as its literal text with the marks applied in
    the order of the mark list: without marks it is the text; a further
    mark at the end of the list wraps what the marks before it gave, [bold]
    in two asterisks, [italic] in one, [code] in backticks, and any other
    mark changes nothing.  The text [x] under [bold, italic] is [***x***]. *)
Theorem text_marks_wrap_in_list_order
  (content : list ProseMirrorNode) (level : JSValue) (t : string) (ms : list Mark) :
  processNode (PMNode "text" content (Some t) None level) = Normal t
  /\ processNode (PMNode "text" content (Some t) (Some []) level) = Normal t
  /\ (exists r,
        processNode (PMNode "text" content (Some t) (Some ms) level) = Normal r
        /\ forall m,
            let after := processNode (PMNode "text" content (Some t)
                                             (Some (ms ++ [m])%list) level) in
            (mark_type m = "bold" -> after = Normal ("**" ++ r ++ "**"))
            /\ (mark_type m = "italic" -> after = Normal ("*" ++ r ++ "*"))
            /\ (mark_type m = "code" -> after = Normal (backtick ++ r ++ backtick))
            /\ (mark_type m <> "bold" -> mark_type m <> "italic" ->
                mark_type m <> "code" -> after = Normal r))
  /\ processNode (PMNode "text" content (Some "x")
                         (Some [ {| mark_type := "bold" |};
                                 {| mark_type := "italic" |} ]) level)
     = Normal "***x***".
Proof.
  repeat split; try reflexivity.
  exists (fold_left applyMark ms t); split; [reflexivity|].
  intros m after; subst after; simpl.
  rewrite fold_left_app; simpl.
  set (r := fold_left applyMark ms t). unfold applyMark.
  repeat split.
  - intros E; rewrite E. reflexivity.
  - intros E; rewrite E. reflexivity.
  - intros E; rewrite E. reflexivity.
  - intros Hb Hi Hc.
    apply String.eqb_neq in Hb, Hi, Hc. now rewrite Hb, Hi, Hc.
Qed.

(** *** When the renderer returns *)

Lemma ToBoolean_orOne (v : JSValue) : ToBoolean (orOne v) = true.
Proof. unfold orOne. destruct (ToBoolean v) eqn:E; [exact E | reflexivity]. Qed.

(** [repeat] on the one-character string, for a count in range. *)
Lemma String_repeat_hash (v : JSValue) (number : Number) (n : Z) :
  ToNumber v = Normal number -> ToIntegerOrInfinity number = Integer n ->
  (0 <= n <= String_maxLength)%Z ->
  String_repeat "#" v = Normal (repeatString "#" (Z.to_nat n)).
Proof.
  intros En Ei Hn. unfold String_repeat. rewrite En. cbn [bind]. rewrite Ei.
  destruct (Z.ltb_spec n 0); [lia|].
  change (Z.of_nat (String.length "#")) with 1%Z. rewrite Z.mul_1_r.
  destruct (Z.ltb_spec String_maxLength n); [lia | reflexivity].
Qed.

(** [repeat] on the one-character string, for a count out of range. *)
Lemma String_repeat_out_of_range (v : JSValue) (number : Number) :
  ToBoolean v = true -> ToNumber v = Normal number -> levelInRange v = false ->
  String_repeat "#" v = Throw RangeError.
Proof.
  intros Ht En. unfold levelInRange, String_repeat. rewrite Ht, En. cbn [bind negb orb].
  destruct (ToIntegerOrInfinity number) as [| |n]; try reflexivity.
  change (Z.of_nat (String.length "#")) with 1%Z. rewrite Z.mul_1_r.
  intros Hr. apply andb_false_iff in Hr.
  destruct (Z.ltb_spec n 0); [reflexivity|].
  destruct (Z.ltb_spec String_maxLength n); [reflexivity|].
  exfalso. destruct Hr as [Hr|Hr]; [apply Z.leb_gt in Hr | apply Z.leb_gt in Hr]; lia.
Qed.

Lemma String_repeat_in_range (v : JSValue) :
  levelInRange (orOne v) = true -> exists hashes, String_repeat "#" (orOne v) = Normal hashes.
Proof.
  unfold levelInRange. rewrite ToBoolean_orOne. cbn [negb orb].
  destruct (ToNumber (orOne v)) as [number|e] eqn:En; [|discriminate].
  destruct (ToIntegerOrInfinity number) as [| |n] eqn:Ei; try discriminate.
  intros Hr. apply andb_true_iff in Hr as [H0 Hmax].
  apply Z.leb_le in H0, Hmax.
  rewrite (String_repeat_hash _ _ _ En Ei (conj H0 Hmax)). eauto.
Qed.

Lemma levelInRange_one : levelInRange (JSNumber (Finite (Qmake 1 1))) = true.
Proof.
  unfold levelInRange. cbn.
  pose proof String_maxLength_positive as Hp.
  destruct (Z.leb_spec 1 String_maxLength); [reflexivity | lia].
Qed.

Lemma levelInRange_orOne (v : JSValue) :
  levelInRange v = true -> levelInRange (orOne v) = true.
Proof.
  unfold orOne. destruct (ToBoolean v) eqn:E; [tauto|].
  intros _. apply levelInRange_one.
Qed.

(** Induction over a value, the hypothesis given for every element of an
    array. *)
Lemma JSValue_tree_ind (P : JSValue -> Prop) :
  P JSUndefined -> P JSNull -> (forall b, P (JSBoolean b)) ->
  (forall n, P (JSNumber n)) -> (forall s, P (JSString s)) ->
  (forall elements, Forall P elements -> P (JSArray elements)) ->
  (forall properties, P (JSObject properties)) ->
  forall v, P v.
Proof.
  intros Hu Hn Hb Hnum Hs Ha Ho.
  fix IH 1.
  intros [| |b|n|s|elements|properties];
    [exact Hu | exact Hn | apply Hb | apply Hnum | apply Hs | | apply Ho].
  apply Ha. induction elements as [|x elements IHe]; constructor.
  - apply IH.
  - exact IHe.
Qed.

Lemma mapM_throws_with {A B : Type} (f : A -> Completion B) (P : Exception -> Prop)
  (l : list A) (e : Exception) :
  Forall (fun x => forall e', f x = Throw e' -> P e') l ->
  mapM f l = Throw e -> P e.
Proof.
  induction 1 as [|x l Hx _ IH]; cbn [mapM bind]; [discriminate|].
  destruct (f x) as [y|e1]; cbn [bind].
  - destruct (mapM f l) as [ys|e2]; cbn [bind]; [discriminate|].
    intros E; injection E as <-. now apply IH.
  - intros E; injection E as <-. now apply Hx.
Qed.

(** The conversions throw nothing but a [TypeError]. *)
Lemma ToString_throws (v : JSValue) (e : Exception) :
  ToString v = Throw e -> e = TypeError.
Proof.
  revert e. induction v as [| |b|n|s|elements IH|properties] using JSValue_tree_ind;
    intros e; cbn [ToString]; try discriminate.
  - destruct (mapM _ elements) as [parts|e'] eqn:Em; cbn [bind]; [discriminate|].
    intros E; injection E as <-.
    apply (mapM_throws_with _ (fun e => e = TypeError) _ _) in Em; [exact Em|].
    eapply Forall_impl; [|exact IH].
    intros x Hx e1. destruct x; intros E; try discriminate E; exact (Hx _ E).
  - destruct (hasOwnProperty properties "toString"); [congruence | discriminate].
Qed.

Lemma ToNumber_throws (v : JSValue) (e : Exception) :
  ToNumber v = Throw e -> e = TypeError.
Proof.
  destruct v; cbn [ToNumber]; try discriminate.
  - destruct (ToString (JSArray elements)) as [s|e'] eqn:Es; cbn [bind]; [discriminate|].
    intros E; injection E as <-. exact (ToString_throws _ _ Es).
  - destruct (ToString (JSObject properties)) as [s|e'] eqn:Es; cbn [bind]; [discriminate|].
    intros E; injection E as <-. exact (ToString_throws _ _ Es).
Qed.

Lemma mapM_returns (content : list ProseMirrorNode) :
  Forall (fun c => headingLevelsInRange c = true -> exists s, processNode c = Normal s)
         content ->
  forallb headingLevelsInRange content = true ->
  exists l, mapM processNode content = Normal l.
Proof.
  induction 1 as [|c content Hc _ IH]; simpl; intros Hall.
  - eauto.
  - apply andb_true_iff in Hall as [H1 H2].
    destruct (Hc H1) as [s ->]. destruct (IH H2) as [l ->].
    simpl. eauto.
Qed.

Lemma mapiM_returns (content : list ProseMirrorNode) (i : nat) :
  Forall (fun c => headingLevelsInRange c = true -> exists s, processNode c = Normal s)
         content ->
  forallb headingLevelsInRange content = true ->
  exists l, mapiM_from (fun child k => childText <- processNode child ;;
                                         Normal (numbered childText k)) i content
            = Normal l.
Proof.
  intros F; revert i; induction F as [|c content Hc _ IH]; simpl; intros i Hall.
  - eauto.
  - apply andb_true_iff in Hall as [H1 H2].
    destruct (Hc H1) as [s ->]. destruct (IH (S i) H2) as [l ->].
    simpl. eauto.
Qed.

Lemma processNode_returns (tree : ProseMirrorNode) :
  headingLevelsInRange tree = true -> exists s, processNode tree = Normal s.
Proof.
  induction tree as [type content text marks level IH]
    using ProseMirrorNode_tree_ind.
  intros Hr. simpl in Hr. apply andb_true_iff in Hr as [Hlevel Hall].
  pose proof (mapM_returns content IH Hall) as [l El].
  pose proof (mapiM_returns content 0 IH Hall) as [li Eli].
  simpl. unfold mapiM. rewrite El, Eli. simpl.
  destruct (type =? "text"); [eauto|].
  destruct (type =? "paragraph"); [eauto|].
  destruct (type =? "heading").
  { destruct (String_repeat_in_range level (levelInRange_orOne _ Hlevel)) as [h ->].
    simpl. eauto. }
  destruct (type =? "bulletList"); [eauto|].
  destruct (type =? "listItem"); [eauto|].
  destruct (type =? "orderedList"); [eauto|].
  destruct (type =? "codeBlock"); [eauto|].
  destruct (type =? "hardBreak"); [eauto|].
  destruct (0 <? List.length content)%nat; eauto.
Qed.

Lemma processNode_heading content text marks level children :
  mapM processNode content = Normal children ->
  processNode (PMNode "heading" content text marks level)
  = hashes <- String_repeat "#" (orOne level) ;;
    Normal (hashes ++ " " ++ join "" children ++ LF ++ LF).
Proof. intros E. simpl. rewrite E. reflexivity. Qed.

(** C2, as amended.  The renderer is a total function of the tree.  It
    returns a string when every heading's level is in range: falsy
    (absent, [null], [false], 0, NaN, the empty string), or converting, as
    [String.prototype.repeat] converts its count, to an integer from 0 to
    the length of the longest string; and when the text to return is no
    longer than the longest string.  A falsy level gives the default
    level 1; any other level, of whatever type, is used as the count it
    converts to; and a truthy level out of range makes the heading throw:
    a [TypeError] when the level has no primitive value, a [RangeError]
    when the count is negative, infinite or too large. *)
Theorem render_returns_when_heading_levels_in_range (tree : ProseMirrorNode) :
  headingLevelsInRange tree = true ->
  fitsString (convertProseMirrorToMarkdown (Some tree)) ->
  (exists s, convertProseMirrorToMarkdown (Some tree) = Normal s
             /\ (Z.of_nat (String.length s) <= String_maxLength)%Z)
  /\ convertProseMirrorToMarkdown None = Normal ""
  /\ (forall content text marks level children,
        mapM processNode content = Normal children ->
        let heading := PMNode "heading" content text marks level in
        (ToBoolean level = false ->
         processNode heading = Normal ("# " ++ join "" children ++ LF ++ LF))
        /\ (forall number n, ToBoolean level = true ->
              ToNumber level = Normal number ->
              ToIntegerOrInfinity number = Integer n ->
              (0 <= n)%Z ->
              (n + Z.of_nat (String.length (join "" children)) + 3
               <= String_maxLength)%Z ->
              processNode heading
              = Normal (repeatString "#" (Z.to_nat n) ++ " " ++ join "" children
                        ++ LF ++ LF))
        /\ (forall e, ToBoolean level = true -> ToNumber level = Throw e ->
              e = TypeError /\ processNode heading = Throw TypeError)
        /\ (forall number, ToBoolean level = true ->
              ToNumber level = Normal number -> levelInRange level = false ->
              processNode heading = Throw RangeError)).
Proof.
  intros Hr Hfits. split; [|split].
  - destruct (processNode_returns tree Hr) as [s Es].
    exists s. split; [exact Es | exact (Hfits s Es)].
  - reflexivity.
  - intros content text marks level children E heading; subst heading.
    rewrite (processNode_heading _ _ _ _ _ E).
    split; [|split; [|split]].
    + intros Hf. unfold orOne. rewrite Hf.
      pose proof String_maxLength_positive as Hp.
      rewrite (String_repeat_hash _ (Finite (Qmake 1 1)) 1);
        [reflexivity | reflexivity | reflexivity | lia].
    + intros number n Ht En Ei Hn Hline. unfold orOne. rewrite Ht.
      rewrite (String_repeat_hash _ _ _ En Ei); [reflexivity | lia].
    + intros e Ht En. unfold orOne. rewrite Ht.
      pose proof (ToNumber_throws _ _ En) as ->. split; [reflexivity|].
      unfold String_repeat. now rewrite En.
    + intros number Ht En Hr'. unfold orOne. rewrite Ht.
      now rewrite (String_repeat_out_of_range _ _ Ht En Hr').
Qed.

End RendererFacts.

(** ** Searching and matching *)



Section SortFacts.
Context {A : Type} (comparefn : A -> A -> option Z).



Lemma insertSorted_permutes (x : A) (l : list A) :
  Permutation (x :: l) (insertSorted comparefn x l).
Proof.
  induction l as [|y l IH]; simpl; [reflexivity|].
  destruct (sortCompare comparefn x y <? 0)%Z; [reflexivity|].
  rewrite perm_swap. now apply perm_skip.
Qed.

Lemma fold_insertSorted_permutes (l acc : list A) :
  Permutation (l ++ acc)
              (fold_left (fun sorted x => insertSorted comparefn x sorted) l acc).
Proof.
  revert acc; induction l as [|x l IH]; intros acc; simpl; [reflexivity|].
  rewrite <- IH. rewrite <- insertSorted_permutes. apply Permutation_middle.
Qed.

Lemma stableSort_permutes (l : list A) : Permutation l (stableSort comparefn l).
Proof.
  unfold stableSort. rewrite <- fold_insertSorted_permutes. now rewrite app_nil_r.
Qed.


Context (t : A -> Z).






End SortFacts.

Lemma mbind_Normal {A B} (m : Method A) (k : A -> Method B) this a this' :
  m this = (Normal a, this') -> mbind m k this = k a this'.
Proof. intros E. unfold mbind. now rewrite E. Qed.

Lemma mbind_Throw {A B} (m : Method A) (k : A -> Method B) this e this' :
  m this = (Throw e, this') -> mbind m k this = (Throw e, this').
Proof. intros E. unfold mbind. now rewrite E. Qed.

Section MatcherFacts.
Context {H : Host} (w : World).


Lemma searchDocuments_filter q limit this docs this' :
  getRecentDocuments w limit 0 this = (Normal docs, this') ->
  searchDocuments w q limit this
  = (Normal (filter (titleMatches (toLowerCase q)) docs), this').
Proof. intros E. unfold searchDocuments. now rewrite (mbind_Normal _ _ _ _ _ E). Qed.



(** C10.  With the empty string as the query, [searchDocuments] returns the
    listing unchanged. *)
Theorem searchDocuments_empty_query
  (limit : Z) (this this' : GranolaAPI) (docs : list GranolaDocument) :
  getRecentDocuments w limit 0 this = (Normal docs, this') ->
  searchDocuments w "" limit this = (Normal docs, this').
Proof.
  intros E. rewrite (searchDocuments_filter "" _ _ _ _ E).
  do 2 f_equal. clear E.
  induction docs as [|d docs' IH]; simpl; [reflexivity|].
  unfold titleMatches at 1. rewrite includes_empty. now f_equal.
Qed.

Lemma is1on1With_spec (name : string) (d : GranolaDocument) :
  is1on1With (toLowerCase name) d = true <-> qualifies name d.
Proof.
  unfold is1on1With, qualifies.
  rewrite andb_true_iff, orb_true_iff.
  change "1:1" with (toLowerCase "1:1") at 1.
  change "1x1" with (toLowerCase "1x1") at 1.
  now rewrite !includes_toLowerCase.
Qed.


(** What the engine's sort gives, whatever the comparator. *)
Lemma Array_sort_In comparefn (l : list GranolaDocument) (z : GranolaDocument) :
  In z (Array_sort comparefn l) <-> In z l.
Proof.
  split; intros Hz.
  - exact (Permutation_in z (Permutation_sym (Array_sort_permutes comparefn l)) Hz).
  - exact (Permutation_in z (Array_sort_permutes comparefn l) Hz).
Qed.




End MatcherFacts.

(** ** Credentials *)

Section CredentialFacts.
Context {H : Host} (w : World).

Lemma truthyOpt_true (o : option string) :
  truthyOpt o = true <-> exists s, o = Some s /\ s <> "".
Proof.
  destruct o as [s|]; simpl.
  - rewrite truthy_true. split.
    + intros Hs. now exists s.
    + intros (s' & E & Hs). now injection E as ->.
  - split; [discriminate | intros (s & E & _); discriminate].
Qed.

Lemma truthyOpt_false (o : option string) :
  truthyOpt o = false <-> o = None \/ o = Some "".
Proof.
  destruct o as [s|]; simpl.
  - rewrite truthy_false. split.
    + intros ->. now right.
    + intros [E|E]; [discriminate | now injection E].
  - split; [now left | reflexivity].
Qed.

Lemma loadCredentials_Normal (token : string) :
  loadCredentials w = Normal token <->
  exists configData config inner workosTokens,
    files w (configPath w) = Some configData
    /\ JSON_parse_GranolaConfig configData = Some (NotNull config)
    /\ workos_tokens config = Some inner /\ inner <> ""
    /\ JSON_parse_WorkOSTokens inner = Some (NotNull workosTokens)
    /\ access_token workosTokens = Some token /\ token <> "".
Proof.
  unfold loadCredentials. split.
  - destruct (files w (configPath w)) as [configData|]; [|discriminate].
    destruct (JSON_parse_GranolaConfig configData) as [[|config]|] eqn:Ec;
      try discriminate.
    destruct (truthyOpt (workos_tokens config)) eqn:Ew; simpl; [|discriminate].
    apply truthyOpt_true in Ew as (inner & Ei & Hi). rewrite Ei; simpl.
    destruct (JSON_parse_WorkOSTokens inner) as [[|workosTokens]|] eqn:Et;
      try discriminate.
    destruct (truthyOpt (access_token workosTokens)) eqn:Ea; simpl; [|discriminate].
    apply truthyOpt_true in Ea as (tok & Etok & Htok). rewrite Etok; simpl.
    intros E; injection E as <-.
    now exists configData, config, inner, workosTokens.
  - intros (configData & config & inner & workosTokens
            & -> & -> & Ei & Hi & Et & Ea & Ha).
    rewrite Ei; simpl. apply truthy_true in Hi; rewrite Hi; simpl.
    rewrite Et, Ea; simpl. apply truthy_true in Ha; now rewrite Ha.
Qed.

(** C9, as amended.  The first call of [getAccessToken] throws the error
    about the missing configuration file when the file does not exist.  It
    throws the error about [workos_tokens] when the file parses to a value
    other than [null] in which that field is absent or the empty string,
    and the error about [access_token] when the text of [workos_tokens]
    parses to a value other than [null] in which that field is absent or
    the empty string.  Where the file or the text of [workos_tokens]
    parses to [null] it throws a [TypeError], and where one of them does
    not parse a [SyntaxError].  It returns the [access_token] exactly
    when the file exists, both texts parse to values other than [null] and
    both fields are present and not empty, and then the token is kept in
    the instance. *)
Theorem getAccessToken_first_call :
  let r := getAccessToken w fresh in
  (files w (configPath w) = None ->
   r = (Throw (Error (configNotFound w)), fresh))
  /\ (forall configData config,
        files w (configPath w) = Some configData ->
        JSON_parse_GranolaConfig configData = Some (NotNull config) ->
        workos_tokens config = None \/ workos_tokens config = Some "" ->
        r = (Throw (Error "No workos_tokens found in Granola config"), fresh))
  /\ (forall configData config inner workosTokens,
        files w (configPath w) = Some configData ->
        JSON_parse_GranolaConfig configData = Some (NotNull config) ->
        workos_tokens config = Some inner -> inner <> "" ->
        JSON_parse_WorkOSTokens inner = Some (NotNull workosTokens) ->
        access_token workosTokens = None \/ access_token workosTokens = Some "" ->
        r = (Throw (Error "No access_token found in workos_tokens"), fresh))
  /\ (forall configData,
        files w (configPath w) = Some configData ->
        (JSON_parse_GranolaConfig configData = Some IsNull ->
         r = (Throw TypeError, fresh))
        /\ (JSON_parse_GranolaConfig configData = None ->
            r = (Throw SyntaxError, fresh))
        /\ (forall config inner,
              JSON_parse_GranolaConfig configData = Some (NotNull config) ->
              workos_tokens config = Some inner -> inner <> "" ->
              (JSON_parse_WorkOSTokens inner = Some IsNull ->
               r = (Throw TypeError, fresh))
              /\ (JSON_parse_WorkOSTokens inner = None ->
                  r = (Throw SyntaxError, fresh))))
  /\ (forall token,
        fst r = Normal token <->
        exists configData config inner workosTokens,
          files w (configPath w) = Some configData
          /\ JSON_parse_GranolaConfig configData = Some (NotNull config)
          /\ workos_tokens config = Some inner /\ inner <> ""
          /\ JSON_parse_WorkOSTokens inner = Some (NotNull workosTokens)
          /\ access_token workosTokens = Some token /\ token <> "")
  /\ (forall token, fst r = Normal token -> snd r = {| accessToken := Some token |}).
Proof.
  intros r; subst r. unfold getAccessToken, fresh; simpl.
  split; [|split; [|split; [|split; [|split]]]].
  - unfold loadCredentials. intros ->. reflexivity.
  - unfold loadCredentials. intros configData config -> -> Hw.
    apply truthyOpt_false in Hw. now rewrite Hw.
  - unfold loadCredentials. intros configData config inner workosTokens
      -> -> Ei Hi Et Ha.
    rewrite Ei; simpl. apply truthy_true in Hi; rewrite Hi; simpl.
    rewrite Et. apply truthyOpt_false in Ha. now rewrite Ha.
  - unfold loadCredentials. intros configData ->. split; [|split].
    + intros ->. reflexivity.
    + intros ->. reflexivity.
    + intros config inner -> Ei Hi. rewrite Ei; simpl.
      apply truthy_true in Hi; rewrite Hi; simpl.
      split; intros ->; reflexivity.
  - intros token. split.
    + intros E. apply loadCredentials_Normal.
      destruct (loadCredentials w); simpl in E; congruence.
    + intros E. apply loadCredentials_Normal in E. now rewrite E.
  - intros token. destruct (loadCredentials w); simpl; congruence.
Qed.

End CredentialFacts.

(** ** Transcripts *)

Section TranscriptFacts.
Context {H : Host} (w : World).

Local Abbreviation transcriptRequest documentId :=
  (makeRequest w JSON_parse_TranscriptResponse
     "https://api.granola.ai/v1/get-document-transcript"
     (GetTranscriptBody documentId)).

(** How a request fails once the token is at hand. *)
Lemma makeRequest_outcome {T} (parse : string -> option T) url body this token this1 :
  getAccessToken w this = (Normal token, this1) ->
  makeRequest w parse url body this =
  match fetch w url ("Bearer " ++ token) body with
  | None => (Throw FetchFailed, this1)
  | Some response =>
      if ok response then
        match parse (body_text response) with
        | Some data => (Normal data, this1)
        | None => (Throw SyntaxError, this1)
        end
      else (Throw (Error ("API error " ++ natToString (status response) ++ ": "
                          ++ body_text response)), this1)
  end.
Proof.
  intros E. unfold makeRequest. rewrite (mbind_Normal _ _ _ _ _ E).
  destruct (fetch w url ("Bearer " ++ token) body) as [response|]; [|reflexivity].
  destruct (ok response); simpl; [|reflexivity].
  destruct (parse (body_text response)); reflexivity.
Qed.

Lemma getDocumentTranscript_cases documentId this :
  getDocumentTranscript w documentId this =
  match transcriptRequest documentId this with
  | (Normal (SegmentArray (s :: l)), this') =>
      (Normal (Some (join (LF ++ LF) (map formatSegment (s :: l)))), this')
  | (_, this') => (Normal None, this')
  end.
Proof.
  unfold getDocumentTranscript, tryCatch, mbind.
  destruct (transcriptRequest documentId this) as [[r|e] this']; [|reflexivity].
  destruct r as [[|s l]|v]; try reflexivity.
  unfold noSegments; simpl. now rewrite orb_true_r.
Qed.

(** C7.  [getDocumentTranscript] never throws.  Its result is [null] when
    the request fails in any way (no credentials, a rejected [fetch], a
    status that is not ok, a body that does not parse) and when the body
    parses to something that is not an array or to the empty array; a
    result other than [null] comes from a non-empty array of segments
    only. *)
Theorem getDocumentTranscript_never_throws (documentId : string) (this : GranolaAPI) :
  exists r this',
    getDocumentTranscript w documentId this = (Normal r, this')
    /\ (forall e this1, transcriptRequest documentId this = (Throw e, this1) ->
          r = None)
    /\ (forall e this1, getAccessToken w this = (Throw e, this1) -> r = None)
    /\ (forall token this1, getAccessToken w this = (Normal token, this1) ->
          let response :=
            fetch w "https://api.granola.ai/v1/get-document-transcript"
                  ("Bearer " ++ token) (GetTranscriptBody documentId) in
          (response = None -> r = None)
          /\ (forall resp, response = Some resp -> ok resp = false -> r = None)
          /\ (forall resp, response = Some resp ->
                JSON_parse_TranscriptResponse (body_text resp) = None -> r = None))
    /\ (forall v this1,
          transcriptRequest documentId this = (Normal (NotAnArray v), this1) ->
          r = None)
    /\ (forall this1,
          transcriptRequest documentId this = (Normal (SegmentArray []), this1) ->
          r = None)
    /\ (r <> None ->
        exists segments, segments <> [] /\
          transcriptRequest documentId this = (Normal (SegmentArray segments), this')).
Proof.
  pose proof (getDocumentTranscript_cases documentId this) as E.
  assert (Hthrow : forall e this1,
             transcriptRequest documentId this = (Throw e, this1) ->
             getDocumentTranscript w documentId this = (Normal None, this1)).
  { intros e this1 Ee. rewrite E, Ee. reflexivity. }
  destruct (getDocumentTranscript w documentId this) as [c this'] eqn:Eg.
  destruct c as [r|e].
  2:{ exfalso.
      destruct (transcriptRequest documentId this) as [[[[|s l]|v]|e'] this1];
        discriminate. }
  exists r, this'. split; [reflexivity|].
  split; [|split; [|split; [|split; [|split]]]].
  - intros e this1 Ee. specialize (Hthrow _ _ Ee). congruence.
  - intros e this1 Ee.
    assert (Er : transcriptRequest documentId this = (Throw e, this1))
      by (unfold makeRequest; now rewrite (mbind_Throw _ _ _ _ _ Ee)).
    specialize (Hthrow _ _ Er). congruence.
  - intros token this1 Et response.
    pose proof (makeRequest_outcome JSON_parse_TranscriptResponse
                  "https://api.granola.ai/v1/get-document-transcript"
                  (GetTranscriptBody documentId) this token this1 Et) as Er.
    fold response in Er.
    split; [|split].
    + intros Hn. rewrite Hn in Er. specialize (Hthrow _ _ Er). congruence.
    + intros resp Hs Hok. rewrite Hs, Hok in Er.
      specialize (Hthrow _ _ Er). congruence.
    + intros resp Hs Hp. rewrite Hs, Hp in Er.
      destruct (ok resp); specialize (Hthrow _ _ Er); congruence.
  - intros v this1 Ev. rewrite Ev in E. congruence.
  - intros this1 Ev. rewrite Ev in E. congruence.
  - intros Hr.
    destruct (transcriptRequest documentId this) as [[[[|s l]|v]|e'] this1];
      injection E as -> ->; try congruence.
    exists (s :: l). split; [discriminate | reflexivity].
Qed.

Lemma formatSegment_lineOf (segment : TranscriptSegment) :
  lineOf segment (formatSegment segment).
Proof.
  unfold lineOf, formatSegment. repeat split.
  - intros ->. reflexivity.
  - intros Hs. rewrite Hs. reflexivity.
  - intros Hm Hs. apply String.eqb_neq in Hm, Hs. now rewrite Hm, Hs.
Qed.

(** C8.  For a non-empty array of segments the formatted transcript is the
    segments' lines in the order of the array, joined by a blank line; the
    line of a segment is its text behind [**Me:** ] for the source
    [microphone], behind [**System:** ] for the source [system], and the
    bare text for any other source. *)
Theorem transcript_lines_joined_by_blank_line
  (documentId : string) (this this' : GranolaAPI) (segments : list TranscriptSegment) :
  segments <> [] ->
  transcriptRequest documentId this = (Normal (SegmentArray segments), this') ->
  exists lines,
    Forall2 lineOf segments lines
    /\ getDocumentTranscript w documentId this
       = (Normal (Some (String.concat (LF ++ LF) lines)), this').
Proof.
  intros Hne Er. exists (map formatSegment segments). split.
  - clear. induction segments as [|s l IH]; simpl; constructor.
    + apply formatSegment_lineOf.
    + exact IH.
  - rewrite getDocumentTranscript_cases, Er.
    destruct segments as [|s l]; [contradiction|].
    now rewrite join_concat.
Qed.

End TranscriptFacts.

(** ** Notes *)

Section NotesFacts.
Context {H : Host} (w : World).

Lemma find_first (documentId : string) (pre post : list GranolaDocument)
  (doc : GranolaDocument) :
  (forall x, In x pre -> id x <> documentId) -> id doc = documentId ->
  find (fun d => id d =? documentId) (pre ++ doc :: post)%list = Some doc.
Proof.
  intros Hpre Hdoc. induction pre as [|x pre IH]; simpl.
  - apply String.eqb_eq in Hdoc. now rewrite Hdoc.
  - assert (Hx : (id x =? documentId) = false)
      by (apply String.eqb_neq, Hpre; now left).
    rewrite Hx. apply IH. intros y Hy. apply Hpre. now right.
Qed.

Lemma find_absent (documentId : string) (page : list GranolaDocument) :
  (forall x, In x page -> id x <> documentId) ->
  find (fun d => id d =? documentId) page = None.
Proof.
  intros Hp. induction page as [|x page IH]; simpl; [reflexivity|].
  assert (Hx : (id x =? documentId) = false)
    by (apply String.eqb_neq, Hp; now left).
  rewrite Hx. apply IH. intros y Hy. apply Hp. now right.
Qed.

Lemma getDocumentNotes_cases documentId this :
  getDocumentNotes w documentId this =
  match getRecentDocuments w 100 0 this with
  | (Normal page, this1) =>
      match find (fun d => id d =? documentId) page with
      | None => (Normal None, this1)
      | Some doc =>
          if truthyOpt (notes_markdown doc) then (Normal (notes_markdown doc), this1)
          else
            match last_viewed_panel doc with
            | Some {| panel_content := Some content |} =>
                match convertProseMirrorToMarkdown (Some content) with
                | Normal rendered => (Normal (Some rendered), this1)
                | Throw _ => (Normal None, this1)
                end
            | _ => (Normal None, this1)
            end
      end
  | (Throw _, this1) => (Normal None, this1)
  end.
Proof.
  unfold getDocumentNotes, tryCatch. unfold mbind at 1.
  destruct (getRecentDocuments w 100 0 this) as [[page|e] this1]; [|reflexivity].
  destruct (find (fun d => id d =? documentId) page) as [doc|]; [|reflexivity].
  destruct (truthyOpt (notes_markdown doc)); [reflexivity|].
  destruct (last_viewed_panel doc) as [[[content|]]|]; try reflexivity.
  unfold mbind, lift.
  destruct (convertProseMirrorToMarkdown (Some content)); reflexivity.
Qed.

(** C6.  [getDocumentNotes] never throws, and its result is read off the
    one listing it asks for, of 100 documents from offset 0.  For the first
    document of that listing with the given id: notes that are not empty
    are returned as they are; without such notes, a content tree is
    rendered and the render returned ([null] should the renderer throw);
    without either the result is [null].  The result is also [null] when
    no document of the listing has the id, so when the service answers
    with its 100 most recent documents and the id belongs to an older one
    only, and when the listing fails. *)
Theorem getDocumentNotes_reads_one_listing (documentId : string) (this : GranolaAPI) :
  exists r this',
    getDocumentNotes w documentId this = (Normal r, this')
    /\ (forall e this1, getRecentDocuments w 100 0 this = (Throw e, this1) -> r = None)
    /\ (forall page this1,
          getRecentDocuments w 100 0 this = (Normal page, this1) ->
          this' = this1
          /\ (forall pre doc post,
                page = (pre ++ doc :: post)%list ->
                (forall x, In x pre -> id x <> documentId) ->
                id doc = documentId ->
                (forall notes, notes_markdown doc = Some notes -> notes <> "" ->
                   r = Some notes)
                /\ (notes_markdown doc = None \/ notes_markdown doc = Some "" ->
                    (forall content,
                       last_viewed_panel doc = Some {| panel_content := Some content |} ->
                       (forall rendered,
                          convertProseMirrorToMarkdown (Some content) = Normal rendered ->
                          r = Some rendered)
                       /\ (forall e,
                             convertProseMirrorToMarkdown (Some content) = Throw e ->
                             r = None))
                    /\ (last_viewed_panel doc = None
                        \/ last_viewed_panel doc = Some {| panel_content := None |} ->
                        r = None)))
          /\ ((forall x, In x page -> id x <> documentId) -> r = None)
          /\ (forall store older,
                page = serviceListing store 100 0 ->
                In older (skipn 100 store) -> id older = documentId ->
                (forall x, In x (firstn 100 store) -> id x <> documentId) ->
                r = None)).
Proof.
  pose proof (getDocumentNotes_cases documentId this) as E.
  destruct (getRecentDocuments w 100 0 this) as [[page|e] this1] eqn:Eg.
  2:{ exists None, this1. split; [exact E|]. split; [reflexivity|]. discriminate. }
  assert (Habsent : (forall x, In x page -> id x <> documentId) ->
                    getDocumentNotes w documentId this = (Normal None, this1)).
  { intros Hp. now rewrite E, (find_absent _ _ Hp). }
  destruct (getDocumentNotes w documentId this) as [c this'] eqn:En.
  destruct c as [r|e].
  2:{ exfalso.
      destruct (find (fun d => id d =? documentId) page) as [doc|]; [|discriminate].
      destruct (truthyOpt (notes_markdown doc)); [discriminate|].
      destruct (last_viewed_panel doc) as [[[content|]]|]; try discriminate.
      destruct (convertProseMirrorToMarkdown (Some content)); discriminate. }
  exists r, this'. split; [reflexivity|]. split; [discriminate|].
  intros page' this1' Ep; injection Ep as <- <-.
  assert (Hthis : this' = this1).
  { destruct (find (fun d => id d =? documentId) page) as [doc|]; [|congruence].
    destruct (truthyOpt (notes_markdown doc)); [congruence|].
    destruct (last_viewed_panel doc) as [[[content|]]|]; try congruence.
    destruct (convertProseMirrorToMarkdown (Some content)); congruence. }
  split; [exact Hthis|]. split; [|split].
  - intros pre doc post -> Hpre Hdoc.
    rewrite (find_first _ _ _ _ Hpre Hdoc) in E.
    split.
    + intros notes En' Hn. rewrite En' in E; simpl in E.
      apply truthy_true in Hn. rewrite Hn in E. congruence.
    + intros Hnotes. apply truthyOpt_false in Hnotes. rewrite Hnotes in E.
      split.
      * intros content Hc. rewrite Hc in E. split.
        -- intros rendered Er. rewrite Er in E. congruence.
        -- intros e Er. rewrite Er in E. congruence.
      * intros [Hc|Hc]; rewrite Hc in E; congruence.
  - intros Hp. specialize (Habsent Hp). congruence.
  - intros store older -> _ _ Hp.
    unfold serviceListing in Habsent; simpl skipn in Habsent.
    specialize (Habsent Hp). congruence.
Qed.

End NotesFacts.

(** ** The cached token *)

Section TokenFacts.
Context {H : Host}.

Lemma getAccessToken_cases (w : World) (this : GranolaAPI) :
  (exists token, accessToken this = Some token /\ token <> ""
                 /\ getAccessToken w this = (Normal token, this))
  \/ (truthyOpt (accessToken this) = false
      /\ ((exists token, loadCredentials w = Normal token /\ token <> ""
                         /\ getAccessToken w this
                            = (Normal token, {| accessToken := Some token |}))
          \/ (exists e, loadCredentials w = Throw e
                        /\ getAccessToken w this = (Throw e, this)))).
Proof.
  unfold getAccessToken.
  destruct (truthyOpt (accessToken this)) eqn:Et; simpl.
  - left. apply truthyOpt_true in Et as (token & E & Hne).
    exists token. rewrite E. now repeat split.
  - right. split; [reflexivity|].
    destruct (loadCredentials w) as [token|e] eqn:El.
    + left. exists token. repeat split.
      apply loadCredentials_Normal in El as (_ & _ & _ & _ & _ & _ & _ & _ & _ & _ & Hne).
      exact Hne.
    + right. now exists e.
Qed.

(** X1.  Once [getAccessToken] has returned a token, the instance holds
    it, and every later call returns the same token and leaves the instance
    as it is, whatever has become of the credential file. *)
Theorem getAccessToken_keeps_token
  (w w' : World) (this this' : GranolaAPI) (token : string) :
  getAccessToken w this = (Normal token, this') ->
  token <> ""
  /\ accessToken this' = Some token
  /\ getAccessToken w' this' = (Normal token, this').
Proof.
  intros E.
  assert (Hs : token <> "" /\ accessToken this' = Some token).
  { destruct (getAccessToken_cases w this)
      as [(tok & Ea & Hne & Eg)|(_ & [(tok & _ & Hne & Eg)|(e & _ & Eg)])];
      rewrite Eg in E; try discriminate; injection E as <- <-; now split. }
  destruct Hs as [Hne Ea]. split; [exact Hne|]. split; [exact Ea|].
  unfold getAccessToken. rewrite Ea; simpl.
  apply truthy_true in Hne. now rewrite Hne.
Qed.

(** X2.  A call of [getAccessToken] that throws changes nothing: no token
    and no failure is kept, so the next call reads the credential file
    again and returns its token once the file is in order. *)
Theorem getAccessToken_failure_is_not_cached
  (w w' : World) (this this' : GranolaAPI) (e : Exception) (token : string) :
  getAccessToken w this = (Throw e, this') ->
  loadCredentials w' = Normal token ->
  this' = this
  /\ loadCredentials w = Throw e
  /\ getAccessToken w' this' = (Normal token, {| accessToken := Some token |}).
Proof.
  intros E El.
  destruct (getAccessToken_cases w this)
    as [(tok & _ & _ & Eg)|(Et & [(tok & _ & _ & Eg)|(e' & El' & Eg)])];
    rewrite Eg in E; try discriminate.
  injection E as <- <-.
  split; [reflexivity|]. split; [exact El'|].
  unfold getAccessToken. now rewrite Et, El.
Qed.

Lemma makeRequest_state {T} (w : World) (parse : string -> option T) url body this :
  snd (makeRequest w parse url body this) = snd (getAccessToken w this).
Proof.
  unfold makeRequest, mbind.
  destruct (getAccessToken w this) as [[token|e] this1]; [|reflexivity].
  destruct (fetch w url ("Bearer " ++ token) body) as [response|]; [|reflexivity].
  destruct (ok response); simpl; [|reflexivity].
  destruct (parse (body_text response)); reflexivity.
Qed.

Lemma getRecentDocuments_state (w : World) limit offset this :
  snd (getRecentDocuments w limit offset this) = snd (getAccessToken w this).
Proof.
  unfold getRecentDocuments, mbind.
  rewrite <- (makeRequest_state w JSON_parse_GetDocumentsResponse
                "https://api.granola.ai/v2/get-documents"
                (GetDocumentsBody limit offset) this).
  destruct (makeRequest w JSON_parse_GetDocumentsResponse
              "https://api.granola.ai/v2/get-documents"
              (GetDocumentsBody limit offset) this) as [[[|r]|e] this1]; reflexivity.
Qed.

(** X3.  The only thing a method of the class does to the instance is what
    [getAccessToken] does: after [getRecentDocuments],
    [getDocumentTranscript], [getDocumentNotes], [searchDocuments] and
    [findLatest1on1], successful or not, the instance is the one
    [getAccessToken] alone would have left.  No method clears or replaces
    a token. *)
Theorem methods_change_the_instance_as_getAccessToken (w : World) (this : GranolaAPI) :
  let after := snd (getAccessToken w this) in
  (forall limit offset, snd (getRecentDocuments w limit offset this) = after)
  /\ (forall documentId, snd (getDocumentTranscript w documentId this) = after)
  /\ (forall documentId, snd (getDocumentNotes w documentId this) = after)
  /\ (forall titlePattern limit, snd (searchDocuments w titlePattern limit this) = after)
  /\ (forall personName, snd (findLatest1on1 w personName this) = after).
Proof.
  intros after; subst after. split; [|split; [|split; [|split]]].
  - intros limit offset. apply getRecentDocuments_state.
  - intros documentId. rewrite getDocumentTranscript_cases.
    rewrite <- (makeRequest_state w JSON_parse_TranscriptResponse
                  "https://api.granola.ai/v1/get-document-transcript"
                  (GetTranscriptBody documentId) this).
    destruct (makeRequest w JSON_parse_TranscriptResponse
                "https://api.granola.ai/v1/get-document-transcript"
                (GetTranscriptBody documentId) this) as [[[[|s l]|v]|e] this1];
      reflexivity.
  - intros documentId. rewrite getDocumentNotes_cases.
    rewrite <- (getRecentDocuments_state w 100 0 this).
    destruct (getRecentDocuments w 100 0 this) as [[page|e] this1]; [|reflexivity].
    destruct (find (fun d => id d =? documentId) page) as [doc|]; [|reflexivity].
    destruct (truthyOpt (notes_markdown doc)); [reflexivity|].
    destruct (last_viewed_panel doc) as [[[content|]]|]; try reflexivity.
    destruct (convertProseMirrorToMarkdown (Some content)); reflexivity.
  - intros titlePattern limit. unfold searchDocuments, mbind.
    rewrite <- (getRecentDocuments_state w limit 0 this).
    destruct (getRecentDocuments w limit 0 this) as [[page|e] this1]; reflexivity.
  - intros personName. unfold findLatest1on1, mbind.
    rewrite <- (getRecentDocuments_state w 50 0 this).
    destruct (getRecentDocuments w 50 0 this) as [[page|e] this1]; [|reflexivity].
    destruct (List.length _ =? 0)%nat; [reflexivity|].
    destruct (Array_sort _ _); reflexivity.
Qed.

Lemma getAccessToken_logged_in (w w' : World) (this : GranolaAPI) :
  truthyOpt (accessToken this) = true ->
  getAccessToken w this = getAccessToken w' this.
Proof. intros Et. unfold getAccessToken. now rewrite Et. Qed.

Lemma makeRequest_logged_in {T} (w w' : World) (parse : string -> option T)
  url body this :
  truthyOpt (accessToken this) = true ->
  (forall u a b, fetch w u a b = fetch w' u a b) ->
  makeRequest w parse url body this = makeRequest w' parse url body this.
Proof.
  intros Et Ef. unfold makeRequest, mbind.
  rewrite (getAccessToken_logged_in w w' this Et).
  destruct (getAccessToken w' this) as [[token|e] this1]; [|reflexivity].
  now rewrite Ef.
Qed.

Lemma getRecentDocuments_logged_in (w w' : World) limit offset this :
  truthyOpt (accessToken this) = true ->
  (forall u a b, fetch w u a b = fetch w' u a b) ->
  getRecentDocuments w limit offset this = getRecentDocuments w' limit offset this.
Proof.
  intros Et Ef. unfold getRecentDocuments, mbind.
  now rewrite (makeRequest_logged_in w w' _ _ _ _ Et Ef).
Qed.

(** X4.  With a token in the instance no method looks at the file system:
    in two worlds whose remote service answers alike, whatever their home
    directories and files, each method gives the same result. *)
Theorem methods_ignore_files_once_logged_in (w w' : World) (this : GranolaAPI) :
  truthyOpt (accessToken this) = true ->
  (forall url authorization body,
      fetch w url authorization body = fetch w' url authorization body) ->
  (forall limit offset,
      getRecentDocuments w limit offset this = getRecentDocuments w' limit offset this)
  /\ (forall documentId,
        getDocumentTranscript w documentId this = getDocumentTranscript w' documentId this)
  /\ (forall documentId,
        getDocumentNotes w documentId this = getDocumentNotes w' documentId this)
  /\ (forall titlePattern limit,
        searchDocuments w titlePattern limit this
        = searchDocuments w' titlePattern limit this)
  /\ (forall personName,
        findLatest1on1 w personName this = findLatest1on1 w' personName this).
Proof.
  intros Et Ef. split; [|split; [|split; [|split]]].
  - intros limit offset. now apply getRecentDocuments_logged_in.
  - intros documentId. rewrite !getDocumentTranscript_cases.
    now rewrite (makeRequest_logged_in w w' _ _ _ _ Et Ef).
  - intros documentId. rewrite !getDocumentNotes_cases.
    now rewrite (getRecentDocuments_logged_in w w' _ _ _ Et Ef).
  - intros titlePattern limit. unfold searchDocuments, mbind.
    now rewrite (getRecentDocuments_logged_in w w' _ _ _ Et Ef).
  - intros personName. unfold findLatest1on1, mbind.
    now rewrite (getRecentDocuments_logged_in w w' _ _ _ Et Ef).
Qed.

End TokenFacts.

(** ** More on searching and matching *)

Lemma lowerChar_idempotent (c : ascii) : lowerChar (lowerChar c) = lowerChar c.
Proof. destruct c as [[] [] [] [] [] [] [] []]; reflexivity. Qed.

Lemma toLowerCase_idempotent (s : string) : toLowerCase (toLowerCase s) = toLowerCase s.
Proof.
  induction s as [|c s IH]; simpl; [reflexivity|].
  now rewrite lowerChar_idempotent, IH.
Qed.




Section StableSortFacts.
Context {A : Type} (comparefn : A -> A -> option Z) (t : A -> Z).




End StableSortFacts.

Section MoreMatcherFacts.
Context {H : Host} (w : World).

Lemma findLatest1on1_cases personName this docs this' :
  getRecentDocuments w 50 0 this = (Normal docs, this') ->
  findLatest1on1 w personName this =
  (Normal match Array_sort byCreatedAtDesc
                     (filter (is1on1With (toLowerCase personName)) docs) with
          | first :: _ => Some {| document := first |}
          | [] => None
          end, this').
Proof.
  intros E. unfold findLatest1on1. rewrite (mbind_Normal _ _ _ _ _ E).
  destruct (List.length _ =? 0)%nat eqn:Hlen.
  - apply Nat.eqb_eq, length_zero_iff_nil in Hlen. rewrite Hlen.
    destruct (Array_sort byCreatedAtDesc []) eqn:Es; [reflexivity|].
    pose proof (Array_sort_In byCreatedAtDesc [] g) as Hin.
    rewrite Es in Hin. destruct (proj1 Hin (or_introl eq_refl)).
  - destruct (Array_sort _ _); reflexivity.
Qed.


(** X6.  The letter case of the query does not matter: [searchDocuments]
    and [findLatest1on1] give for a query what they give for the query in
    lower case, so the same for any two queries that are equal up to
    letter case. *)
Theorem search_ignores_letter_case_of_query (q : string) :
  (forall limit this,
      searchDocuments w (toLowerCase q) limit this = searchDocuments w q limit this)
  /\ (forall this, findLatest1on1 w (toLowerCase q) this = findLatest1on1 w q this)
  /\ (forall q', toLowerCase q' = toLowerCase q ->
        (forall limit this,
            searchDocuments w q' limit this = searchDocuments w q limit this)
        /\ (forall this, findLatest1on1 w q' this = findLatest1on1 w q this)).
Proof.
  split; [|split].
  - intros limit this. unfold searchDocuments. now rewrite toLowerCase_idempotent.
  - intros this. unfold findLatest1on1. now rewrite toLowerCase_idempotent.
  - intros q' E. split.
    + intros limit this. unfold searchDocuments. now rewrite E.
    + intros this. unfold findLatest1on1. now rewrite E.
Qed.

(** X7.  Whatever [findLatest1on1] returns for a person, [searchDocuments]
    returns too for that person's name over the same 50 documents. *)
Theorem findLatest1on1_among_search_results
  (personName : string) (this this' : GranolaAPI) (docs : list GranolaDocument)
  (d : GranolaDocument) :
  getRecentDocuments w 50 0 this = (Normal docs, this') ->
  fst (findLatest1on1 w personName this) = Normal (Some {| document := d |}) ->
  exists r, searchDocuments w personName 50 this = (Normal r, this') /\ In d r.
Proof.
  intros E Ef. rewrite (findLatest1on1_cases _ _ _ _ E) in Ef. simpl in Ef.
  exists (filter (titleMatches (toLowerCase personName)) docs).
  split; [exact (searchDocuments_filter w _ _ _ _ _ E)|].
  destruct (Array_sort byCreatedAtDesc _) as [|first rest] eqn:Es; [discriminate|].
  injection Ef as ->.
  assert (Hin : In d (filter (is1on1With (toLowerCase personName)) docs))
    by (apply (proj1 (Array_sort_In byCreatedAtDesc _ _)); rewrite Es; now left).
  apply filter_In in Hin as [Hd Hm]. apply filter_In. split; [exact Hd|].
  unfold is1on1With in Hm. now apply andb_true_iff in Hm as [Hn _].
Qed.


End MoreMatcherFacts.

(** ** More on the renderer *)

Lemma flat_app (a b : list string) : flat (a ++ b)%list = flat a ++ flat b.
Proof.
  induction a as [|x a IH]; simpl; [reflexivity|].
  now rewrite IH, append_assoc.
Qed.

Lemma trimStart_allWhiteSpace (s : string) :
  allWhiteSpace s = true -> trimStart s = "".
Proof.
  induction s as [|c s IH]; simpl; [reflexivity|].
  intros Hs. apply andb_true_iff in Hs as [Hc Hs]. rewrite Hc. now apply IH.
Qed.

Lemma trimStart_not_allWhiteSpace (s : string) :
  allWhiteSpace s = false ->
  exists c r, trimStart s = String c r /\ isWhiteSpace c = false.
Proof.
  induction s as [|c s IH]; simpl; [discriminate|].
  destruct (isWhiteSpace c) eqn:Ec; simpl.
  - exact IH.
  - intros _. now exists c, s.
Qed.

Lemma trimEnd_keeps_black (c : ascii) (r : string) :
  isWhiteSpace c = false -> trimEnd (String c r) <> "".
Proof.
  intros Hc. simpl. rewrite Hc. destruct (trimEnd r); discriminate.
Qed.

(** [trim] leaves nothing exactly of the strings of white space. *)
Lemma truthy_trim (s : string) : truthy (trim s) = negb (allWhiteSpace s).
Proof.
  unfold trim. destruct (allWhiteSpace s) eqn:Es; simpl.
  - now rewrite (trimStart_allWhiteSpace _ Es).
  - destruct (trimStart_not_allWhiteSpace _ Es) as (c & r & -> & Hc).
    apply truthy_true. now apply trimEnd_keeps_black.
Qed.

Section MoreRendererFacts.
Context {H : Host}.








Lemma applyMark_delimiters (result : string) (mark : Mark) :
  applyMark result mark = markDelimiter mark ++ result ++ markDelimiter mark.
Proof.
  unfold applyMark, markDelimiter.
  destruct (mark_type mark =? "bold"); [reflexivity|].
  destruct (mark_type mark =? "italic"); [reflexivity|].
  destruct (mark_type mark =? "code"); [reflexivity|].
  simpl. now rewrite append_nil_r.
Qed.

Lemma fold_applyMark (marks : list Mark) (result : string) :
  fold_left applyMark marks result
  = flat (rev (map markDelimiter marks)) ++ result ++ flat (map markDelimiter marks).
Proof.
  revert result; induction marks as [|m marks IH]; intros result; simpl.
  - now rewrite append_nil_r.
  - rewrite IH, applyMark_delimiters, flat_app. simpl.
    now rewrite append_nil_r, !append_assoc.
Qed.

(** X10.  A text node renders as its literal text between the delimiters
    of its marks: in front the delimiters in reverse order of the mark
    list, behind in the order of the list, a mark that is not [bold],
    [italic] or [code] adding nothing.  An absent text is the empty
    string, absent marks are no marks, and the node's children and
    attributes play no part. *)
Theorem text_between_mark_delimiters
  (content : list ProseMirrorNode) (text : option string)
  (marks : option (list Mark)) (level : JSValue) :
  let ms := match marks with Some l => l | None => [] end in
  processNode (PMNode "text" content text marks level)
  = Normal (flat (rev (map markDelimiter ms)) ++ orEmpty text
            ++ flat (map markDelimiter ms)).
Proof. intros ms. simpl. now rewrite fold_applyMark. Qed.

(** X11.  A paragraph whose children render to texts that are white space
    altogether (so a paragraph without children) renders as the empty
    string; any other paragraph renders as its children's texts followed by
    two newlines. *)
Theorem paragraph_blank_or_block
  (content : list ProseMirrorNode) (text : option string)
  (marks : option (list Mark)) (level : JSValue) (children : list string) :
  mapM processNode content = Normal children ->
  processNode (PMNode "paragraph" content text marks level)
  = Normal (if allWhiteSpace (flat children) then ""
            else flat children ++ LF ++ LF).
Proof.
  intros E. simpl. rewrite E. simpl.
  rewrite join_empty, truthy_trim.
  now destruct (allWhiteSpace (flat children)).
Qed.

End MoreRendererFacts.

(** ** The tool handlers *)

Section HandlerFacts.
Context {H : Host} {R : Runtime} (w : World).

Lemma tryCatchWith_Normal {A} (m : Method A) handler this a this' :
  m this = (Normal a, this') -> tryCatchWith m handler this = (Normal a, this').
Proof. intros E. unfold tryCatchWith. now rewrite E. Qed.

Lemma tryCatchWith_Throw {A} (m : Method A) handler this e this' :
  m this = (Throw e, this') -> tryCatchWith m handler this = handler e this'.
Proof. intros E. unfold tryCatchWith. now rewrite E. Qed.

Lemma getDocumentTranscript_completes documentId this :
  exists r this', getDocumentTranscript w documentId this = (Normal r, this').
Proof.
  rewrite getDocumentTranscript_cases.
  destruct (makeRequest w JSON_parse_TranscriptResponse _ _ this)
    as [[[[|s l]|v]|e] this1]; eauto.
Qed.

Lemma getDocumentNotes_completes documentId this :
  exists r this', getDocumentNotes w documentId this = (Normal r, this').
Proof.
  rewrite getDocumentNotes_cases.
  destruct (getRecentDocuments w 100 0 this) as [[page|e] this1]; [|eauto].
  destruct (find (fun d => id d =? documentId) page) as [doc|]; [|eauto].
  destruct (truthyOpt (notes_markdown doc)); [eauto|].
  destruct (last_viewed_panel doc) as [[[content|]]|]; eauto.
  destruct (convertProseMirrorToMarkdown (Some content)); eauto.
Qed.

Lemma truthyOpt_orEmpty (o : option string) :
  truthyOpt o = true -> orEmpty o <> "".
Proof. intros Ht. apply truthyOpt_true in Ht as (s & -> & Hs). exact Hs. Qed.

(** X12.  [get_document] never answers with an error and never with an
    empty text: the failures of the notes and of the transcript are
    swallowed below it, and for notes or a transcript that are missing or
    empty it answers with its fixed sentence.  Otherwise its text is the
    notes, or the transcript when that was asked for. *)
Theorem get_document_no_error_no_empty_text
  (document_id : string) (transcript : option bool) (this : GranolaAPI) :
  exists r this',
    get_document w document_id transcript this = (Normal r, this')
    /\ isError r = false
    /\ result_text r <> ""
    /\ (transcript = Some true ->
        forall t, fst (getDocumentTranscript w document_id this) = Normal t ->
          result_text r = if truthyOpt t then orEmpty t
                          else "No transcript available for this document")
    /\ (transcript <> Some true ->
        forall n, fst (getDocumentNotes w document_id this) = Normal n ->
          result_text r = if truthyOpt n then orEmpty n
                          else "No AI notes available for this document").
Proof.
  unfold get_document.
  destruct transcript as [[|]|]; simpl.
  - destruct (getDocumentTranscript_completes document_id this) as (t & this' & Et).
    rewrite (tryCatchWith_Normal _ _ _
               (textResult (if truthyOpt t then orEmpty t
                            else "No transcript available for this document")) this').
    2:{ rewrite (mbind_Normal _ _ _ _ _ Et). now destruct (truthyOpt t). }
    eexists _, _. split; [reflexivity|]. split; [reflexivity|].
    split; [|split].
    + simpl. destruct (truthyOpt t) eqn:E; [now apply truthyOpt_orEmpty | discriminate].
    + intros _ t' Et'. rewrite Et in Et'. simpl in Et'. now injection Et' as <-.
    + congruence.
  - destruct (getDocumentNotes_completes document_id this) as (n & this' & En).
    rewrite (tryCatchWith_Normal _ _ _
               (textResult (if truthyOpt n then orEmpty n
                            else "No AI notes available for this document")) this').
    2:{ rewrite (mbind_Normal _ _ _ _ _ En). now destruct (truthyOpt n). }
    eexists _, _. split; [reflexivity|]. split; [reflexivity|].
    split; [|split].
    + simpl. destruct (truthyOpt n) eqn:E; [now apply truthyOpt_orEmpty | discriminate].
    + discriminate.
    + intros _ n' En'. rewrite En in En'. simpl in En'. now injection En' as <-.
  - destruct (getDocumentNotes_completes document_id this) as (n & this' & En).
    rewrite (tryCatchWith_Normal _ _ _
               (textResult (if truthyOpt n then orEmpty n
                            else "No AI notes available for this document")) this').
    2:{ rewrite (mbind_Normal _ _ _ _ _ En). now destruct (truthyOpt n). }
    eexists _, _. split; [reflexivity|]. split; [reflexivity|].
    split; [|split].
    + simpl. destruct (truthyOpt n) eqn:E; [now apply truthyOpt_orEmpty | discriminate].
    + discriminate.
    + intros _ n' En'. rewrite En in En'. simpl in En'. now injection En' as <-.
Qed.

Lemma getRecentDocuments_without_credentials limit offset this e :
  getAccessToken w this = (Throw e, this) ->
  getRecentDocuments w limit offset this = (Throw e, this).
Proof.
  intros E. unfold getRecentDocuments, makeRequest.
  now rewrite (mbind_Throw _ _ _ _ _ (mbind_Throw _ _ _ _ _ E)).
Qed.

(** X13.  Without credentials the three listing tools answer with an
    error that carries the message of the credential failure, each behind
    its own prefix, while [get_document] answers with its sentence for
    missing notes or a missing transcript and no error; none of them
    throws, and the instance stays as it was. *)
Theorem tools_without_credentials
  (this : GranolaAPI) (e : Exception) (limit : option Z) (query person_name : string)
  (document_id : string) (transcript : option bool) :
  getAccessToken w this = (Throw e, this) ->
  get_recent_documents w limit this
  = (Normal (errorResult ("Error fetching documents: " ++ errorMessage e)), this)
  /\ search_documents w query limit this
     = (Normal (errorResult ("Error searching documents: " ++ errorMessage e)), this)
  /\ get_latest_1on1 w person_name transcript this
     = (Normal (errorResult ("Error finding 1:1: " ++ errorMessage e)), this)
  /\ get_document w document_id (Some false) this
     = (Normal (textResult "No AI notes available for this document"), this)
  /\ get_document w document_id (Some true) this
     = (Normal (textResult "No transcript available for this document"), this).
Proof.
  intros E.
  pose proof (fun l o => getRecentDocuments_without_credentials l o this e E) as Eg.
  split; [|split; [|split; [|split]]].
  - unfold get_recent_documents.
    now rewrite (tryCatchWith_Throw _ _ _ _ _ (mbind_Throw _ _ _ _ _ (Eg _ _))).
  - unfold search_documents, searchDocuments.
    now rewrite (tryCatchWith_Throw _ _ _ _ _
                   (mbind_Throw _ _ _ _ _ (mbind_Throw _ _ _ _ _ (Eg _ _)))).
  - unfold get_latest_1on1, findLatest1on1.
    now rewrite (tryCatchWith_Throw _ _ _ _ _
                   (mbind_Throw _ _ _ _ _ (mbind_Throw _ _ _ _ _ (Eg _ _)))).
  - unfold get_document.
    assert (En : getDocumentNotes w document_id this = (Normal None, this))
      by (rewrite getDocumentNotes_cases, (Eg 100%Z 0%Z); reflexivity).
    now rewrite (tryCatchWith_Normal _ _ _ _ _ (mbind_Normal _ _ _ _ _ En)).
  - unfold get_document.
    assert (Et : getDocumentTranscript w document_id this = (Normal None, this)).
    { rewrite getDocumentTranscript_cases. unfold makeRequest.
      now rewrite (mbind_Throw _ _ _ _ _ E). }
    now rewrite (tryCatchWith_Normal _ _ _ _ _ (mbind_Normal _ _ _ _ _ Et)).
Qed.



End HandlerFacts.

Lemma in_firstn {A} (n : nat) (l : list A) (x : A) : In x (firstn n l) -> In x l.
Proof.
  revert n; induction l as [|y l IH]; intros [|n]; simpl; try tauto.
  intros [->|Hx]; [now left | right; now apply (IH n)].
Qed.

Lemma in_firstn_le {A} (n m : nat) (l : list A) (x : A) :
  n <= m -> In x (firstn n l) -> In x (firstn m l).
Proof.
  revert n m; induction l as [|y l IH]; intros [|n] [|m] Hle; simpl; try tauto; try lia.
  intros [->|Hx]; [now left | right; apply (IH n m); [lia | exact Hx]].
Qed.

(** Among documents of distinct ids, looking one up by its id finds it. *)
Lemma find_by_unique_id (n : nat) (l : list GranolaDocument) (d : GranolaDocument) :
  NoDup (map id l) -> In d (firstn n l) ->
  find (fun x => id x =? id d) (firstn n l) = Some d.
Proof.
  revert n; induction l as [|x l IH]; intros [|n]; simpl; try tauto.
  intros Hnd [->|Hd].
  - now rewrite String.eqb_refl.
  - inversion Hnd as [|x' l' Hx Hl]; subst.
    destruct (String.eqb_spec (id x) (id d)) as [E|_].
    + exfalso. apply Hx. rewrite E. apply in_map. now apply (in_firstn n).
    + now apply IH.
Qed.

Section MeetingFacts.
Context {H : Host} {R : Runtime} (w : World).

Lemma get_latest_1on1_found person_name transcript this this1 d :
  findLatest1on1 w person_name this = (Normal (Some {| document := d |}), this1) ->
  (transcript = Some true ->
   forall t this2, getDocumentTranscript w (id d) this1 = (Normal t, this2) ->
     get_latest_1on1 w person_name transcript this
     = (Normal (textResult
                  (meetingHeader d
                   ++ (if truthyOpt t then orEmpty t
                       else "*No transcript available for this meeting*"))), this2))
  /\ (transcript <> Some true ->
      forall n this2, getDocumentNotes w (id d) this1 = (Normal n, this2) ->
        get_latest_1on1 w person_name transcript this
        = (Normal (textResult
                     (meetingHeader d
                      ++ (if truthyOpt n then orEmpty n
                          else "*No AI notes available for this meeting*"))), this2)).
Proof.
  intros Ef. unfold get_latest_1on1, meetingHeader. split.
  - intros -> t this2 Et. apply tryCatchWith_Normal.
    rewrite (mbind_Normal _ _ _ _ _ Ef). cbv beta iota zeta.
    rewrite (mbind_Normal _ _ _ _ _ Et). unfold ret, textResult.
    destruct (truthyOpt t); now rewrite !append_assoc.
  - intros Ht n this2 En. apply tryCatchWith_Normal.
    rewrite (mbind_Normal _ _ _ _ _ Ef). cbv beta iota zeta.
    assert (Eb : match transcript with Some b => b | None => false end = false)
      by (destruct transcript as [[|]|]; congruence).
    rewrite Eb. rewrite (mbind_Normal _ _ _ _ _ En). unfold ret, textResult.
    destruct (truthyOpt n); now rewrite !append_assoc.
Qed.

(** X15.  Over a listing that succeeded, [get_latest_1on1] answers with no
    error.  Its text is the sentence that no meeting was found exactly
    when [findLatest1on1] found none, so when no listed document
    qualifies; for a meeting found it is the meeting's header (title,
    date, rule) followed by a body that is never empty: the notes, or the
    transcript when that was asked for, looked up by the meeting's id, or
    the sentence that there is none. *)
Theorem get_latest_1on1_text
  (person_name : string) (transcript : option bool) (this this1 : GranolaAPI)
  (docs : list GranolaDocument) :
  getRecentDocuments w 50 0 this = (Normal docs, this1) ->
  exists r,
    fst (get_latest_1on1 w person_name transcript this) = Normal r
    /\ isError r = false
    /\ ((forall d, In d docs -> ~ qualifies person_name d) ->
        result_text r = "No 1:1 meeting found with " ++ quoted person_name)
    /\ (forall d,
          fst (findLatest1on1 w person_name this) = Normal (Some {| document := d |}) ->
          (exists body, body <> "" /\ result_text r = meetingHeader d ++ body)
          /\ (transcript = Some true ->
              forall t, fst (getDocumentTranscript w (id d) this1) = Normal t ->
                result_text r
                = meetingHeader d
                  ++ (if truthyOpt t then orEmpty t
                      else "*No transcript available for this meeting*"))
          /\ (transcript <> Some true ->
              forall n, fst (getDocumentNotes w (id d) this1) = Normal n ->
                result_text r
                = meetingHeader d
                  ++ (if truthyOpt n then orEmpty n
                      else "*No AI notes available for this meeting*"))).
Proof.
  intros E. pose proof (findLatest1on1_cases w person_name _ _ _ E) as Ef.
  set (matching := filter (is1on1With (toLowerCase person_name)) docs) in Ef.
  destruct (Array_sort byCreatedAtDesc matching) as [|first rest] eqn:Es.
  - (* no meeting *)
    exists (textResult ("No 1:1 meeting found with " ++ quoted person_name)).
    split.
    { unfold get_latest_1on1.
      now rewrite (tryCatchWith_Normal _ _ _ _ _ (mbind_Normal _ _ _ _ _ Ef)). }
    split; [reflexivity|]. split; [reflexivity|].
    intros d Ed. rewrite Ef in Ed. discriminate.
  - destruct (get_latest_1on1_found person_name transcript this this1 first Ef)
      as [Htrue Hfalse].
    assert (Hq : In first docs /\ qualifies person_name first).
    { assert (Hin : In first matching)
        by (apply (proj1 (Array_sort_In byCreatedAtDesc _ _)); rewrite Es; now left).
      apply filter_In in Hin as [Hd Hm]. now apply is1on1With_spec in Hm. }
    destruct (Bool.bool_dec (match transcript with Some b => b | None => false end)
                            true) as [Eb|Eb].
    + assert (Et : transcript = Some true)
        by (destruct transcript as [[|]|]; congruence).
      destruct (getDocumentTranscript_completes w (id first) this1)
        as (t & this2 & Eg).
      eexists. split; [rewrite (Htrue Et _ _ Eg); reflexivity|].
      split; [reflexivity|]. split.
      * intros Hnone. exfalso. exact (Hnone _ (proj1 Hq) (proj2 Hq)).
      * intros d Ed. rewrite Ef in Ed. injection Ed as <-. simpl.
        split; [|split].
        -- eexists. split; [|reflexivity].
           destruct (truthyOpt t) eqn:Ett;
             [now apply truthyOpt_orEmpty | discriminate].
        -- intros _ t' Et'. rewrite Eg in Et'. now injection Et' as <-.
        -- congruence.
    + assert (Et : transcript <> Some true)
        by (destruct transcript as [[|]|]; simpl in Eb; congruence).
      destruct (getDocumentNotes_completes w (id first) this1)
        as (n & this2 & Eg).
      eexists. split; [rewrite (Hfalse Et _ _ Eg); reflexivity|].
      split; [reflexivity|]. split.
      * intros Hnone. exfalso. exact (Hnone _ (proj1 Hq) (proj2 Hq)).
      * intros d Ed. rewrite Ef in Ed. injection Ed as <-. simpl.
        split; [|split].
        -- eexists. split; [|reflexivity].
           destruct (truthyOpt n) eqn:Ett;
             [now apply truthyOpt_orEmpty | discriminate].
        -- congruence.
        -- intros _ n' En'. rewrite Eg in En'. now injection En' as <-.
Qed.

(** X16.  The notes [get_latest_1on1] shows are those of the meeting in
    its header.  Let the service answer a listing with the most recent
    documents of a store in which no two documents share an id; then a
    meeting found among the first 50 is the document the notes lookup
    finds by that id among the first 100.  The text is the header followed
    by that document's own notes when they are not empty; without such
    notes, by the render of its own content tree when the tree renders to
    a text that is not empty; and by the sentence that there are no notes
    when the tree renders to the empty string, when the renderer throws,
    and when there is no tree. *)
Theorem get_latest_1on1_shows_notes_of_the_meeting
  (store : list GranolaDocument) (person_name : string)
  (this this1 this2 : GranolaAPI) (d : GranolaDocument) :
  NoDup (map id store) ->
  getRecentDocuments w 50 0 this = (Normal (serviceListing store 50 0), this1) ->
  getRecentDocuments w 100 0 this1 = (Normal (serviceListing store 100 0), this2) ->
  fst (findLatest1on1 w person_name this) = Normal (Some {| document := d |}) ->
  let sentence := "*No AI notes available for this meeting*" in
  exists r,
    get_latest_1on1 w person_name None this = (Normal r, this2)
    /\ isError r = false
    /\ (forall notes, notes_markdown d = Some notes -> notes <> "" ->
          result_text r = meetingHeader d ++ notes)
    /\ (notes_markdown d = None \/ notes_markdown d = Some "" ->
        (forall content,
           last_viewed_panel d = Some {| panel_content := Some content |} ->
           (forall rendered,
              convertProseMirrorToMarkdown (Some content) = Normal rendered ->
              rendered <> "" ->
              result_text r = meetingHeader d ++ rendered)
           /\ (convertProseMirrorToMarkdown (Some content) = Normal "" ->
               result_text r = meetingHeader d ++ sentence)
           /\ (forall e,
                 convertProseMirrorToMarkdown (Some content) = Throw e ->
                 result_text r = meetingHeader d ++ sentence))
        /\ (last_viewed_panel d = None
            \/ last_viewed_panel d = Some {| panel_content := None |} ->
            result_text r = meetingHeader d ++ sentence)).
Proof.
  intros Hnd E50 E100 Ed sentence.
  pose proof (findLatest1on1_cases w person_name _ _ _ E50) as Ef.
  rewrite Ef in Ed. simpl in Ed.
  destruct (Array_sort byCreatedAtDesc _) as [|first rest] eqn:Es; [discriminate|].
  injection Ed as ->.
  assert (Hin : In d (firstn 100 store)).
  { assert (Hm : In d (filter (is1on1With (toLowerCase person_name))
                              (serviceListing store 50 0)))
      by (apply (proj1 (Array_sort_In byCreatedAtDesc _ _)); rewrite Es; now left).
    apply filter_In in Hm as [Hm _].
    apply (in_firstn_le 50 100); [lia | exact Hm]. }
  pose proof (getDocumentNotes_cases w (id d) this1) as En.
  rewrite E100 in En. unfold serviceListing in En; simpl skipn in En.
  rewrite (find_by_unique_id 100 store d Hnd Hin) in En.
  destruct (get_latest_1on1_found person_name None this this1 d Ef) as [_ Hfalse].
  assert (Hno : @None bool <> Some true) by discriminate.
  assert (Hnotes : forall n r,
             getDocumentNotes w (id d) this1 = (Normal n, this2) ->
             r = textResult (meetingHeader d
                             ++ (if truthyOpt n then orEmpty n else sentence)) ->
             get_latest_1on1 w person_name None this = (Normal r, this2)
             /\ isError r = false).
  { intros n r En' ->. split; [exact (Hfalse Hno _ _ En') | reflexivity]. }
  clear Hfalse Ef Es.
  destruct (truthyOpt (notes_markdown d)) eqn:Et.
  - destruct (Hnotes _ _ En eq_refl) as [Er He].
    eexists. split; [exact Er|]. split; [exact He|].
    unfold textResult; cbn [result_text]. rewrite Et. split.
    + intros notes -> _. reflexivity.
    + intros [E|E]; rewrite E in Et; discriminate.
  - assert (Hnone : forall notes, notes_markdown d = Some notes -> notes <> "" ->
                      False).
    { intros notes En' Hne. rewrite En' in Et. simpl in Et.
      apply truthy_true in Hne. congruence. }
    destruct (last_viewed_panel d) as [[[content|]]|] eqn:Ep.
    + destruct (convertProseMirrorToMarkdown (Some content)) as [rendered|e] eqn:Er'.
      * destruct (Hnotes _ _ En eq_refl) as [Er He].
        eexists. split; [exact Er|]. split; [exact He|].
        unfold textResult; cbn [result_text truthyOpt orEmpty]. split.
        { intros notes En' Hne. destruct (Hnone _ En' Hne). }
        intros _. split; [|intros [Hc|Hc]; discriminate].
        intros content' Ec. injection Ec as <-. rewrite Er'. split; [|split].
        -- intros rendered' Er'' Hne. injection Er'' as <-.
           apply truthy_true in Hne. now rewrite Hne.
        -- intros Er''. injection Er'' as ->. reflexivity.
        -- discriminate.
      * destruct (Hnotes _ _ En eq_refl) as [Er He].
        eexists. split; [exact Er|]. split; [exact He|].
        unfold textResult; cbn [result_text truthyOpt orEmpty]. split.
        { intros notes En' Hne. destruct (Hnone _ En' Hne). }
        intros _. split; [|intros [Hc|Hc]; discriminate].
        intros content' Ec. injection Ec as <-. rewrite Er'. split; [|split].
        -- discriminate.
        -- discriminate.
        -- reflexivity.
    + destruct (Hnotes _ _ En eq_refl) as [Er He].
      eexists. split; [exact Er|]. split; [exact He|].
      unfold textResult; cbn [result_text truthyOpt orEmpty]. split.
      { intros notes En' Hne. destruct (Hnone _ En' Hne). }
      intros _. split; [discriminate | reflexivity].
    + destruct (Hnotes _ _ En eq_refl) as [Er He].
      eexists. split; [exact Er|]. split; [exact He|].
      unfold textResult; cbn [result_text truthyOpt orEmpty]. split.
      { intros notes En' Hne. destruct (Hnone _ En' Hne). }
      intros _. split; [discriminate | reflexivity].
Qed.

End MeetingFacts.

(** ** Listings *)

Section ListingFacts.
Context {H : Host} (w : World).

(** X17.  With a token at hand [getRecentDocuments] posts the limit and the
    offset to the listing endpoint under [Bearer] and the token, and its
    outcome is read off the one response: a rejected [fetch], a status
    that is not ok (reported with the status and the body, which is not
    parsed) and a body that does not parse are thrown; a body that parses
    to [null] makes the read of [docs] throw a [TypeError]; a body that
    parses to another value without [docs] is the empty listing, not an
    error; otherwise the listing is [docs] as it stands. *)
Theorem getRecentDocuments_outcomes
  (limit offset : Z) (this this1 : GranolaAPI) (token : string) :
  getAccessToken w this = (Normal token, this1) ->
  let response := fetch w "https://api.granola.ai/v2/get-documents"
                        ("Bearer " ++ token) (GetDocumentsBody limit offset) in
  let outcome := getRecentDocuments w limit offset this in
  (response = None -> outcome = (Throw FetchFailed, this1))
  /\ (forall resp, response = Some resp -> ok resp = false ->
        outcome = (Throw (Error ("API error " ++ natToString (status resp) ++ ": "
                                 ++ body_text resp)), this1))
  /\ (forall resp, response = Some resp -> ok resp = true ->
        JSON_parse_GetDocumentsResponse (body_text resp) = None ->
        outcome = (Throw SyntaxError, this1))
  /\ (forall resp, response = Some resp -> ok resp = true ->
        JSON_parse_GetDocumentsResponse (body_text resp) = Some IsNull ->
        outcome = (Throw TypeError, this1))
  /\ (forall resp r, response = Some resp -> ok resp = true ->
        JSON_parse_GetDocumentsResponse (body_text resp) = Some (NotNull r) ->
        (docs r = None -> outcome = (Normal [], this1))
        /\ (forall l, docs r = Some l -> outcome = (Normal l, this1))).
Proof.
  intros E response outcome.
  assert (Eo : outcome =
               mbind (makeRequest w JSON_parse_GetDocumentsResponse
                        "https://api.granola.ai/v2/get-documents"
                        (GetDocumentsBody limit offset))
                     (fun r => match r with
                               | IsNull => throw TypeError
                               | NotNull r =>
                                   ret (match docs r with Some l => l | None => [] end)
                               end)
                     this) by reflexivity.
  pose proof (makeRequest_outcome w JSON_parse_GetDocumentsResponse
                "https://api.granola.ai/v2/get-documents"
                (GetDocumentsBody limit offset) this token this1 E) as Em.
  fold response in Em.
  split; [|split; [|split; [|split]]].
  - intros Er. rewrite Er in Em. now rewrite Eo, (mbind_Throw _ _ _ _ _ Em).
  - intros resp Er Hok. rewrite Er, Hok in Em.
    now rewrite Eo, (mbind_Throw _ _ _ _ _ Em).
  - intros resp Er Hok Hp. rewrite Er, Hok, Hp in Em.
    now rewrite Eo, (mbind_Throw _ _ _ _ _ Em).
  - intros resp Er Hok Hp. rewrite Er, Hok, Hp in Em.
    now rewrite Eo, (mbind_Normal _ _ _ _ _ Em).
  - intros resp r Er Hok Hp. rewrite Er, Hok, Hp in Em.
    rewrite Eo, (mbind_Normal _ _ _ _ _ Em). unfold ret. split.
    + intros ->. reflexivity.
    + intros l ->. reflexivity.
Qed.

End ListingFacts.

(** ** Children and list items *)

Lemma mapM_Forall2_Normal {A B} (f : A -> Completion B) (l : list A) (ys : list B) :
  Forall2 (fun x y => f x = Normal y) l ys -> mapM f l = Normal ys.
Proof.
  induction 1 as [|x y l ys Hy _ IH]; simpl; [reflexivity|].
  now rewrite Hy, IH.
Qed.

Section ChildrenFacts.
Context {H : Host}.

Lemma mapM_same_renders (content content' : list ProseMirrorNode) :
  Forall2 (fun c c' => processNode c = processNode c') content content' ->
  mapM processNode content = mapM processNode content'.
Proof.
  induction 1 as [|c c' content content' Hc _ IH]; simpl; [reflexivity|].
  now rewrite Hc, IH.
Qed.

Lemma mapiM_same_renders (content content' : list ProseMirrorNode) (i : nat) :
  Forall2 (fun c c' => processNode c = processNode c') content content' ->
  mapiM_from (fun child k => childText <- processNode child ;;
                             Normal (numbered childText k)) i content
  = mapiM_from (fun child k => childText <- processNode child ;;
                               Normal (numbered childText k)) i content'.
Proof.
  intros F; revert i; induction F as [|c c' content content' Hc _ IH]; simpl;
    intros i; [reflexivity|].
  now rewrite Hc, (IH (S i)).
Qed.

(** X18.  A node's render depends on its children through their renders
    only: with each child replaced by a node of the same render (or the
    same exception), the node renders as before, whatever its kind. *)
Theorem render_depends_on_renders_of_children
  (type : string) (content content' : list ProseMirrorNode) (text : option string)
  (marks : option (list Mark)) (level : JSValue) :
  Forall2 (fun c c' => processNode c = processNode c') content content' ->
  processNode (PMNode type content text marks level)
  = processNode (PMNode type content' text marks level).
Proof.
  intros F. simpl. unfold mapiM.
  rewrite (mapM_same_renders _ _ F), (mapiM_same_renders _ _ 0 F).
  now rewrite (Forall2_length F).
Qed.

Lemma listItemOf_render (item : ProseMirrorNode) (r : string) :
  listItemOf item r -> processNode item = Normal ("- " ++ r).
Proof.
  intros (content & text & marks & level & children & -> & E & ->).
  simpl. rewrite E. simpl. now rewrite join_empty.
Qed.

Lemma listItems_render (items : list ProseMirrorNode) (rs : list string) :
  Forall2 listItemOf items rs ->
  Forall2 (fun c s => processNode c = Normal s) items (map (fun r => "- " ++ r) rs).
Proof.
  induction 1 as [|item r items rs Hi _ IH]; simpl; constructor.
  - now apply listItemOf_render.
  - exact IH.
Qed.

(** X19.  List items are written one behind the other with nothing added
    between them.  In a [bulletList] each item is a dash, a space and the
    item's text; in an [orderedList] each item carries its number and the
    dash, as in [1. - text], and no number is left out, an item's render
    never being empty. *)
Theorem list_items_run_together
  (items : list ProseMirrorNode) (rs : list string)
  (text : option string) (marks : option (list Mark)) (level : JSValue) :
  Forall2 listItemOf items rs ->
  processNode (PMNode "bulletList" items text marks level)
  = Normal (flat (map (fun r => "- " ++ r) rs))
  /\ processNode (PMNode "orderedList" items text marks level)
     = Normal (flat (map (fun i => natToString (i + 1) ++ ". - " ++ nth i rs "")
                         (seq 0 (List.length rs)))).
Proof.
  intros F. pose proof (listItems_render _ _ F) as Fr. split.
  - simpl. apply mapM_Forall2_Normal in Fr. rewrite Fr. simpl.
    now rewrite join_empty.
  - rewrite (processNode_orderedList _ _ text marks level Fr).
    unfold orderedListText. rewrite length_map. do 2 f_equal.
    apply map_ext_in. intros i Hi. apply in_seq in Hi.
    unfold orderedItem.
    rewrite (nth_indep _ "" ("- " ++ "")) by (rewrite length_map; lia).
    rewrite (map_nth (fun r => "- " ++ r)). reflexivity.
Qed.

End ChildrenFacts.

(** ** The host of the examples *)

Section ExampleSortFacts.
Context {A : Type} (comparefn : A -> A -> option Z).

Lemma insertAt_permutes (k : nat) (x : A) (l : list A) :
  Permutation (x :: l) (insertAt k x l).
Proof.
  unfold insertAt. rewrite <- Permutation_middle. now rewrite firstn_skipn.
Qed.

Lemma binaryInsertionSort_permutes (run rest : list A) :
  Permutation (rest ++ run) (binaryInsertionSort comparefn run rest).
Proof.
  unfold binaryInsertionSort.
  revert run; induction rest as [|pivot rest IH]; intros run; simpl; [reflexivity|].
  rewrite <- IH. rewrite <- insertAt_permutes. apply Permutation_middle.
Qed.

Lemma extendRun_permutes (descending : bool) (previous : A) (run rest : list A) :
  Permutation (run ++ rest)
              (fst (extendRun comparefn descending previous run rest)
               ++ snd (extendRun comparefn descending previous run rest)).
Proof.
  revert previous run; induction rest as [|current rest IH]; intros previous run;
    simpl; [reflexivity|].
  destruct (if descending then _ else _); [reflexivity|].
  rewrite <- IH. simpl. apply Permutation_sym, Permutation_middle.
Qed.

Lemma insertionSort_permutes (l : list A) :
  Permutation l (insertionSort comparefn l).
Proof.
  destruct l as [|low [|next rest]]; try reflexivity.
  unfold insertionSort.
  pose proof (extendRun_permutes (sortCompare comparefn next low <? 0)%Z next
                                 [next; low] rest) as Hp.
  destruct (extendRun comparefn _ next [next; low] rest) as [run rest'].
  simpl fst in Hp; simpl snd in Hp.
  rewrite <- binaryInsertionSort_permutes.
  transitivity (run ++ rest')%list.
  - rewrite <- Hp. simpl. apply perm_swap.
  - rewrite Permutation_app_comm. apply Permutation_app_head.
    destruct (sortCompare comparefn next low <? 0)%Z; [reflexivity|].
    apply Permutation_rev.
Qed.

Lemma exampleSort_permutes (l : list A) : Permutation l (exampleSort comparefn l).
Proof.
  unfold exampleSort. destruct (consistent comparefn l).
  - apply stableSort_permutes.
  - apply insertionSort_permutes.
Qed.

Lemma exampleSort_stable (l : list A) :
  consistent comparefn l = true -> exampleSort comparefn l = stableSort comparefn l.
Proof. intros Hc. unfold exampleSort. now rewrite Hc. Qed.

End ExampleSortFacts.

(** The host of the examples: the built-ins of Node.js 20 as far as
    the definitions above go. *)
Definition exampleHost : Host := {|
  Date_getTime := exampleDate;
  StringToNumber := exampleStringToNumber;
  NumberToString := exampleNumberToString;
  String_maxLength := 536870888;
  String_maxLength_positive := eq_refl;
  JSON_parse_GranolaConfig := exampleParseConfig;
  JSON_parse_WorkOSTokens := exampleParseTokens;
  JSON_parse_GetDocumentsResponse := exampleParseDocuments;
  JSON_parse_TranscriptResponse := exampleParseTranscript;
  path_join := fun a b => a ++ "/" ++ b;
  Array_sort := exampleSort;
  Array_sort_permutes := exampleSort_permutes;
  Array_sort_stable := exampleSort_stable
|}.

(** ** The theorems at the examples *)

#[local] Existing Instance exampleHost.



(** C2 at [exampleTree], whose one heading has level 2. *)
Lemma render_at_exampleTree :
  headingLevelsInRange exampleTree = true
  /\ fitsString (convertProseMirrorToMarkdown (Some exampleTree))
  /\ convertProseMirrorToMarkdown (Some exampleTree)
     = Normal ("## Agenda" ++ LF ++ LF ++ "***x***" ++ LF ++ LF)
  /\ (Z.of_nat (String.length ("## Agenda" ++ LF ++ LF ++ "***x***" ++ LF ++ LF))
      <= String_maxLength)%Z.
Proof.
  assert (Hr : headingLevelsInRange exampleTree = true) by (vm_compute; reflexivity).
  assert (Hfits : fitsString (convertProseMirrorToMarkdown (Some exampleTree))).
  { intros s Es. vm_compute in Es. injection Es as <-. vm_compute. discriminate. }
  split; [exact Hr|]. split; [exact Hfits|].
  destruct (render_returns_when_heading_levels_in_range exampleTree Hr Hfits)
    as [(s & Es & Hs) _].
  vm_compute in Es. injection Es as <-. split; [vm_compute; reflexivity | exact Hs].
Defined.

(** C2 fails as stated: these trees are well formed.  The heading of level
    -1, the one whose level is the string [-1] and the one whose level is
    the array of -1 make the renderer throw, as does a level of ten
    thousand million; the level [{"toString": 1}] makes it throw a
    [TypeError].  A level of another type is not replaced by the default:
    the array of 3 gives three [#], the empty object none at all. *)
Lemma render_throws_on_negative_level :
  wellFormed negativeHeading = true
  /\ convertProseMirrorToMarkdown (Some negativeHeading) = Throw RangeError
  /\ wellFormed stringHeading = true
  /\ convertProseMirrorToMarkdown (Some stringHeading) = Throw RangeError
  /\ wellFormed negativeArrayHeading = true
  /\ convertProseMirrorToMarkdown (Some negativeArrayHeading) = Throw RangeError
  /\ wellFormed hugeHeading = true
  /\ convertProseMirrorToMarkdown (Some hugeHeading) = Throw RangeError
  /\ wellFormed noPrimitiveHeading = true
  /\ convertProseMirrorToMarkdown (Some noPrimitiveHeading) = Throw TypeError
  /\ wellFormed arrayHeading = true
  /\ convertProseMirrorToMarkdown (Some arrayHeading) = Normal ("### Title" ++ LF ++ LF)
  /\ wellFormed objectHeading = true
  /\ convertProseMirrorToMarkdown (Some objectHeading) = Normal (" Title" ++ LF ++ LF).
Proof. repeat split; vm_compute; reflexivity. Qed.

(** C3 at [orderedChildren]. *)
Lemma orderedList_at_example :
  Forall2 (fun c s => processNode c = Normal s) orderedChildren
          [ "a" ++ LF ++ LF; ""; "c" ++ LF ++ LF ]
  /\ processNode (PMNode "orderedList" orderedChildren None None JSUndefined)
     = Normal ("1. " ++ ("a" ++ LF ++ LF) ++ "3. " ++ ("c" ++ LF ++ LF)).
Proof.
  assert (F : Forall2 (fun c s => processNode c = Normal s) orderedChildren
                      [ "a" ++ LF ++ LF; ""; "c" ++ LF ++ LF ])
    by (repeat constructor).
  split; [exact F|].
  destruct (orderedList_numbers_by_position orderedChildren _ None None JSUndefined F)
    as (_ & _ & _ & H3).
  apply H3; [reflexivity | discriminate | discriminate].
Defined.


(** C10 at [exampleWorld]. *)
Lemma searchDocuments_empty_query_at_example :
  getRecentDocuments exampleWorld 20 0 fresh = (Normal exampleDocuments, loggedIn)
  /\ searchDocuments exampleWorld "" 20 fresh = (Normal exampleDocuments, loggedIn).
Proof.
  assert (E : getRecentDocuments exampleWorld 20 0 fresh
              = (Normal exampleDocuments, loggedIn)) by (vm_compute; reflexivity).
  split; [exact E|].
  exact (searchDocuments_empty_query exampleWorld 20 fresh loggedIn exampleDocuments E).
Defined.

(** C6 at the examples: in [exampleWorld] the third document has no notes
    and its content tree is rendered; against the service of [longStore]
    the document [doc-120] lies behind the 100 listed ones and has no
    notes for the caller. *)
Lemma getDocumentNotes_at_examples :
  (exists this',
     getDocumentNotes exampleWorld "doc-3" fresh
     = (Normal (Some ("## Agenda" ++ LF ++ LF ++ "***x***" ++ LF ++ LF)), this'))
  /\ In (numberedDocument 120) (skipn 100 longStore)
  /\ exists this', getDocumentNotes longWorld "doc-120" fresh = (Normal None, this').
Proof.
  split; [|split].
  - destruct (getDocumentNotes_reads_one_listing exampleWorld "doc-3" fresh)
      as (r & this' & E & _ & Hpage).
    destruct (Hpage exampleDocuments loggedIn) as (_ & Hfound & _);
      [vm_compute; reflexivity|].
    destruct (Hfound [weeklySync; samJanuary] samFebruary [])
      as (_ & Htree); [reflexivity | | reflexivity |].
    { intros x [<-|[<-|[]]]; discriminate. }
    destruct (Htree (or_introl eq_refl)) as (Hrender & _).
    destruct (Hrender exampleTree eq_refl) as (Hok & _).
    exists this'. rewrite E. f_equal. f_equal. now apply Hok.
  - vm_compute. do 20 right. left. reflexivity.
  - destruct (getDocumentNotes_reads_one_listing longWorld "doc-120" fresh)
      as (r & this' & E & _ & Hpage).
    destruct (Hpage (serviceListing longStore 100 0) loggedIn) as (_ & _ & _ & Hwindow);
      [vm_compute; reflexivity|].
    exists this'. rewrite E. f_equal. f_equal.
    apply (Hwindow longStore (numberedDocument 120)).
    + reflexivity.
    + vm_compute. do 20 right. left. reflexivity.
    + reflexivity.
    + assert (Hall : forallb (fun x => negb (id x =? "doc-120")) (firstn 100 longStore)
                     = true) by (vm_compute; reflexivity).
      intros x Hx. rewrite forallb_forall in Hall. specialize (Hall x Hx).
      apply String.eqb_neq. now apply negb_true_iff in Hall.
Defined.

(** C6 fails as stated: the listing holds the document [doc-6], which has
    no notes and has a content tree; the tree is well formed, its one
    heading has the level -1, the renderer throws, and the result is
    [null], not the result of rendering the tree. *)
Lemma getDocumentNotes_null_where_render_throws :
  getRecentDocuments brokenWorld 100 0 fresh = (Normal [ brokenDocument ], loggedIn)
  /\ id brokenDocument = "doc-6"
  /\ notes_markdown brokenDocument = None
  /\ last_viewed_panel brokenDocument = Some {| panel_content := Some negativeHeading |}
  /\ wellFormed negativeHeading = true
  /\ convertProseMirrorToMarkdown (Some negativeHeading) = Throw RangeError
  /\ getDocumentNotes brokenWorld "doc-6" fresh = (Normal None, loggedIn).
Proof. repeat split; vm_compute; reflexivity. Qed.

(** C7 at [exampleWorld]: the service has no segments for [doc-1]. *)
Lemma getDocumentTranscript_at_example :
  exists r this',
    getDocumentTranscript exampleWorld "doc-1" fresh = (Normal r, this') /\ r = None.
Proof.
  destruct (getDocumentTranscript_never_throws exampleWorld "doc-1" fresh)
    as (r & this' & E & _ & _ & _ & _ & Hempty & _).
  exists r, this'. split; [exact E|].
  apply (Hempty loggedIn). vm_compute. reflexivity.
Defined.

(** C8 at [exampleWorld]: the three segments of [doc-2]. *)
Lemma transcript_at_example :
  exampleSegments <> []
  /\ exists lines,
       Forall2 lineOf exampleSegments lines
       /\ getDocumentTranscript exampleWorld "doc-2" fresh
          = (Normal (Some (String.concat (LF ++ LF) lines)), loggedIn).
Proof.
  split; [discriminate|].
  apply (transcript_lines_joined_by_blank_line exampleWorld "doc-2" fresh loggedIn
           exampleSegments); [discriminate|].
  vm_compute. reflexivity.
Defined.

(** C9 at the examples: the token of a logged-in user, and the error on a
    machine without the file. *)
Lemma getAccessToken_at_examples :
  fst (getAccessToken exampleWorld fresh) = Normal "tok-123"
  /\ getAccessToken emptyWorld fresh
     = (Throw (Error (configNotFound emptyWorld)), fresh).
Proof.
  split.
  - destruct (getAccessToken_first_call exampleWorld) as (_ & _ & _ & _ & Hok & _).
    apply Hok.
    exists configText, {| workos_tokens := Some tokensText |}, tokensText,
      {| access_token := Some "tok-123" |}.
    repeat split; try discriminate; vm_compute; reflexivity.
  - destruct (getAccessToken_first_call emptyWorld) as (Hmissing & _).
    apply Hmissing. reflexivity.
Defined.

(** C9 fails as stated.  The file exists, both texts parse and both fields
    are present, the inner one as the empty string, and the call throws.
    And where [workos_tokens] is the text [null], which parses and has no
    [access_token], the call throws a [TypeError], not an error about the
    missing field. *)
Lemma getAccessToken_rejects_empty_token :
  files emptyTokenWorld (configPath emptyTokenWorld) = Some emptyTokenConfigText
  /\ JSON_parse_GranolaConfig emptyTokenConfigText
     = Some (NotNull {| workos_tokens := Some emptyTokenText |})
  /\ JSON_parse_WorkOSTokens emptyTokenText
     = Some (NotNull {| access_token := Some "" |})
  /\ getAccessToken emptyTokenWorld fresh
     = (Throw (Error "No access_token found in workos_tokens"), fresh)
  /\ files nullTokensWorld (configPath nullTokensWorld) = Some nullTokensConfigText
  /\ JSON_parse_GranolaConfig nullTokensConfigText
     = Some (NotNull {| workos_tokens := Some "null" |})
  /\ JSON_parse_WorkOSTokens "null" = Some IsNull
  /\ getAccessToken nullTokensWorld fresh = (Throw TypeError, fresh).
Proof. repeat split; vm_compute; reflexivity. Qed.

(** ** The further theorems at the examples *)

#[local] Existing Instance exampleRuntime.

(** X1 at the examples: the token read in [exampleWorld] is still returned
    after the credential file is gone. *)
Lemma getAccessToken_keeps_token_at_example :
  getAccessToken exampleWorld fresh = (Normal "tok-123", loggedIn)
  /\ getAccessToken loggedOutWorld loggedIn = (Normal "tok-123", loggedIn).
Proof.
  assert (E : getAccessToken exampleWorld fresh = (Normal "tok-123", loggedIn))
    by (vm_compute; reflexivity).
  split; [exact E|].
  destruct (getAccessToken_keeps_token exampleWorld loggedOutWorld fresh loggedIn
              "tok-123" E) as (_ & _ & Ek).
  exact Ek.
Defined.

(** X2 at the examples: a call on the machine without the file, then a
    call of the same instance where the file exists. *)
Lemma getAccessToken_retries_at_example :
  getAccessToken emptyWorld fresh = (Throw (Error (configNotFound emptyWorld)), fresh)
  /\ getAccessToken exampleWorld fresh = (Normal "tok-123", loggedIn).
Proof.
  assert (E : getAccessToken emptyWorld fresh
              = (Throw (Error (configNotFound emptyWorld)), fresh))
    by (vm_compute; reflexivity).
  split; [exact E|].
  destruct (getAccessToken_failure_is_not_cached emptyWorld exampleWorld fresh fresh
              (Error (configNotFound emptyWorld)) "tok-123" E)
    as (_ & _ & Ek); [vm_compute; reflexivity|].
  exact Ek.
Defined.

(** X4 at the examples: logged in, the listing is the same with and
    without the credential file. *)
Lemma logged_in_listing_at_example :
  truthyOpt (accessToken loggedIn) = true
  /\ getRecentDocuments exampleWorld 20 0 loggedIn
     = getRecentDocuments loggedOutWorld 20 0 loggedIn.
Proof.
  split; [reflexivity|].
  destruct (methods_ignore_files_once_logged_in exampleWorld loggedOutWorld loggedIn)
    as (Hl & _); [reflexivity | reflexivity |].
  apply Hl.
Defined.


(** X7 and X8 at the examples: the meeting of February is among the search
    results for [Sam], and stands behind the one earlier qualifying
    document. *)
Lemma findLatest1on1_among_search_results_at_example :
  exists r, searchDocuments exampleWorld "Sam" 50 fresh = (Normal r, loggedIn)
            /\ In samFebruary r.
Proof.
  apply (findLatest1on1_among_search_results exampleWorld "Sam" fresh loggedIn
           exampleDocuments samFebruary); vm_compute; reflexivity.
Defined.



(** X11 at the examples: a paragraph with text and one with a space only. *)
Lemma paragraph_blank_or_block_at_examples :
  processNode (paragraphOf "a") = Normal ("a" ++ LF ++ LF)
  /\ processNode (paragraphOf " ") = Normal "".
Proof.
  split.
  - apply (paragraph_blank_or_block
             [ PMNode "text" [] (Some "a") None JSUndefined ] None None JSUndefined
             [ "a" ]). reflexivity.
  - apply (paragraph_blank_or_block
             [ PMNode "text" [] (Some " ") None JSUndefined ] None None JSUndefined
             [ " " ]). reflexivity.
Defined.

(** X13 at the machine without Granola. *)
Lemma tools_without_credentials_at_example :
  getAccessToken emptyWorld fresh = (Throw (Error (configNotFound emptyWorld)), fresh)
  /\ get_recent_documents emptyWorld None fresh
     = (Normal (errorResult ("Error fetching documents: " ++ configNotFound emptyWorld)),
        fresh)
  /\ get_document emptyWorld "doc-1" (Some false) fresh
     = (Normal (textResult "No AI notes available for this document"), fresh).
Proof.
  assert (E : getAccessToken emptyWorld fresh
              = (Throw (Error (configNotFound emptyWorld)), fresh))
    by (vm_compute; reflexivity).
  split; [exact E|].
  destruct (tools_without_credentials emptyWorld fresh
              (Error (configNotFound emptyWorld)) None "" "" "doc-1" None E)
    as (Hl & _ & _ & Hn & _).
  split; [exact Hl | exact Hn].
Defined.


(** X15 and X16 at the examples: the latest one-on-one with Sam has no
    notes of its own, and its content tree is rendered under its header;
    under the header of a meeting whose content tree makes the renderer
    throw, or renders to the empty string, stands the sentence that there
    are no notes. *)
Lemma get_latest_1on1_text_at_example :
  exists r,
    fst (get_latest_1on1 exampleWorld "Sam" None fresh) = Normal r
    /\ isError r = false
    /\ exists body, body <> "" /\ result_text r = meetingHeader samFebruary ++ body.
Proof.
  destruct (get_latest_1on1_text exampleWorld "Sam" None fresh loggedIn
              exampleDocuments) as (r & Er & He & _ & Hfound);
    [vm_compute; reflexivity|].
  exists r. split; [exact Er|]. split; [exact He|].
  destruct (Hfound samFebruary) as (Hbody & _); [vm_compute; reflexivity|].
  exact Hbody.
Defined.

Lemma get_latest_1on1_notes_at_example :
  NoDup (map id exampleDocuments)
  /\ (exists r,
        get_latest_1on1 exampleWorld "Sam" None fresh = (Normal r, loggedIn)
        /\ result_text r
           = meetingHeader samFebruary
             ++ ("## Agenda" ++ LF ++ LF ++ "***x***" ++ LF ++ LF))
  /\ NoDup (map id [ brokenDocument ])
  /\ convertProseMirrorToMarkdown (Some negativeHeading) = Throw RangeError
  /\ (exists r,
        get_latest_1on1 brokenWorld "Sam" None fresh = (Normal r, loggedIn)
        /\ result_text r
           = meetingHeader brokenDocument
             ++ "*No AI notes available for this meeting*")
  /\ NoDup (map id [ blankDocument ])
  /\ (exists r,
        get_latest_1on1 blankWorld "Sam" None fresh = (Normal r, loggedIn)
        /\ result_text r
           = meetingHeader blankDocument
             ++ "*No AI notes available for this meeting*").
Proof.
  assert (Hnd : NoDup (map id exampleDocuments)).
  { repeat constructor; simpl; intros Hin;
      repeat (destruct Hin as [Hin|Hin]; [discriminate|]); exact Hin. }
  assert (Hnd' : NoDup (map id [ brokenDocument ])).
  { repeat constructor; simpl; intros Hin; exact Hin. }
  assert (Et : convertProseMirrorToMarkdown (Some negativeHeading) = Throw RangeError)
    by (vm_compute; reflexivity).
  assert (Hnd'' : NoDup (map id [ blankDocument ])).
  { repeat constructor; simpl; intros Hin; exact Hin. }
  split; [exact Hnd|].
  split; [|split; [exact Hnd'|split; [exact Et|split; [|split; [exact Hnd''|]]]]].
  - destruct (get_latest_1on1_shows_notes_of_the_meeting exampleWorld exampleDocuments
                "Sam" fresh loggedIn loggedIn samFebruary Hnd)
      as (r & Er & _ & _ & Htree);
      [vm_compute; reflexivity | vm_compute; reflexivity | vm_compute; reflexivity |].
    exists r. split; [exact Er|].
    destruct (Htree (or_introl eq_refl)) as (Hpanel & _).
    destruct (Hpanel exampleTree eq_refl) as (Hrender & _).
    apply Hrender; [vm_compute; reflexivity | discriminate].
  - destruct (get_latest_1on1_shows_notes_of_the_meeting brokenWorld [ brokenDocument ]
                "Sam" fresh loggedIn loggedIn brokenDocument Hnd')
      as (r & Er & _ & _ & Htree);
      [vm_compute; reflexivity | vm_compute; reflexivity | vm_compute; reflexivity |].
    exists r. split; [exact Er|].
    destruct (Htree (or_introl eq_refl)) as (Hpanel & _).
    destruct (Hpanel negativeHeading eq_refl) as (_ & _ & Hthrow).
    exact (Hthrow RangeError Et).
  - destruct (get_latest_1on1_shows_notes_of_the_meeting blankWorld [ blankDocument ]
                "Sam" fresh loggedIn loggedIn blankDocument Hnd'')
      as (r & Er & _ & _ & Htree);
      [vm_compute; reflexivity | vm_compute; reflexivity | vm_compute; reflexivity |].
    exists r. split; [exact Er|].
    destruct (Htree (or_introl eq_refl)) as (Hpanel & _).
    destruct (Hpanel (PMNode "doc" [] None None JSUndefined) eq_refl)
      as (_ & Hempty & _).
    apply Hempty. vm_compute. reflexivity.
Defined.

(** X17 at the examples: the listing of [exampleWorld], and the service
    whose listing is the body [null]. *)
Lemma getRecentDocuments_outcomes_at_example :
  getAccessToken exampleWorld fresh = (Normal "tok-123", loggedIn)
  /\ getRecentDocuments exampleWorld 20 0 fresh = (Normal exampleDocuments, loggedIn)
  /\ getAccessToken nullWorld fresh = (Normal "tok-123", loggedIn)
  /\ getRecentDocuments nullWorld 20 0 fresh = (Throw TypeError, loggedIn).
Proof.
  assert (E : getAccessToken exampleWorld fresh = (Normal "tok-123", loggedIn))
    by (vm_compute; reflexivity).
  assert (E' : getAccessToken nullWorld fresh = (Normal "tok-123", loggedIn))
    by (vm_compute; reflexivity).
  split; [exact E|]. split; [|split; [exact E'|]].
  - destruct (getRecentDocuments_outcomes exampleWorld 20 0 fresh loggedIn "tok-123" E)
      as (_ & _ & _ & _ & Hok).
    destruct (Hok {| ok := true; status := 200; body_text := documentsText |}
                  {| docs := Some exampleDocuments |}) as (_ & Hdocs);
      [vm_compute; reflexivity | reflexivity | vm_compute; reflexivity |].
    apply Hdocs. reflexivity.
  - destruct (getRecentDocuments_outcomes nullWorld 20 0 fresh loggedIn "tok-123" E')
      as (_ & _ & _ & Hnull & _).
    apply (Hnull {| ok := true; status := 200; body_text := "null" |});
      [reflexivity | reflexivity | vm_compute; reflexivity].
Defined.

(** X18 at the examples: a bullet list around either paragraph. *)
Lemma render_depends_on_renders_at_example :
  Forall2 (fun c c' => processNode c = processNode c')
          [ paragraphOf "a" ] [ paragraphOfUnmarked "a" ]
  /\ processNode (PMNode "bulletList" [ paragraphOf "a" ] None None JSUndefined)
     = processNode (PMNode "bulletList" [ paragraphOfUnmarked "a" ] None None JSUndefined).
Proof.
  assert (F : Forall2 (fun c c' => processNode c = processNode c')
                      [ paragraphOf "a" ] [ paragraphOfUnmarked "a" ])
    by (repeat constructor).
  split; [exact F|].
  exact (render_depends_on_renders_of_children "bulletList" _ _ None None JSUndefined F).
Defined.

(** X19 at the examples: two items, as a bullet list and as an ordered
    list. *)
Lemma list_items_run_together_at_example :
  processNode (PMNode "bulletList" [ listItemWith "a"; listItemWith "b" ]
                      None None JSUndefined) = Normal "- a- b"
  /\ processNode (PMNode "orderedList" [ listItemWith "a"; listItemWith "b" ]
                         None None JSUndefined) = Normal "1. - a2. - b".
Proof.
  apply (list_items_run_together [ listItemWith "a"; listItemWith "b" ] [ "a"; "b" ]
           None None JSUndefined).
  repeat constructor.
  - exists [ PMNode "text" [] (Some "a") None JSUndefined ], None, None, JSUndefined,
      [ "a" ]. repeat split.
  - exists [ PMNode "text" [] (Some "b") None JSUndefined ], None, None, JSUndefined,
      [ "b" ]. repeat split.
Defined.
